(** * Project selection optimiser: entities, model builder, result extraction

    A shallow embedding of [project_selection_optimisation_example.ipynb]:
    the two frozen dataclasses with their [__post_init__] validation, the
    statements that fill the PuLP problem, and the cells that read the solved
    variables back. *)

From Stdlib Require Import List String Ascii Bool ZArith QArith Lia Lqa.
Import ListNotations.

Set Warnings "-register-all".

Local Open Scope string_scope.
Local Open Scope Z_scope.

(** ** Python values and exceptions *)

(** The run-time values the constructors can be handed.  A finite float is
    carried by the rational it denotes. *)
Inductive pyval : Type :=
| PyNone
| PyBool (b : bool)
| PyInt (z : Z)
| PyFloat (q : Q)
| PyStr (s : string)
| PyList (l : list pyval).

Inductive exn : Type :=
| AssertionError (msg : string)
| PulpError (msg : string).

Definition result (A : Type) : Type := (exn + A)%type.

Definition ok {A} (a : A) : result A := inr a.
Definition raise {A} (e : exn) : result A := inl e.

Definition rbind {A B} (r : result A) (k : A -> result B) : result B :=
  match r with
  | inl e => inl e
  | inr a => k a
  end.

Notation "r ;;; k" := (rbind r (fun _ => k))
  (at level 61, right associativity).

(** [assert cond, msg] *)
Definition assert (cond : bool) (msg : string) : result unit :=
  if cond then ok tt else raise (AssertionError msg).

(** The annotations that occur in the two dataclasses. *)
Inductive annotation : Type :=
| Ann_str
| Ann_int
| Ann_List_str.

(** [repr] of an annotation class, as the f-string prints it. *)
Definition annotation_repr (v : annotation) : string :=
  match v with
  | Ann_str => "<class 'str'>"
  | Ann_int => "<class 'int'>"
  | Ann_List_str => "typing.List[str]"
  end.

(** [repr(type(x))] *)
Definition type_repr (x : pyval) : string :=
  match x with
  | PyNone => "<class 'NoneType'>"
  | PyBool _ => "<class 'bool'>"
  | PyInt _ => "<class 'int'>"
  | PyFloat _ => "<class 'float'>"
  | PyStr _ => "<class 'str'>"
  | PyList _ => "<class 'list'>"
  end.

Definition is_str (x : pyval) : bool :=
  match x with PyStr _ => true | _ => false end.

(** [isinstance(x, int)]: [bool] is a subclass of [int]. *)
Definition is_int (x : pyval) : bool :=
  match x with PyInt _ | PyBool _ => true | _ => false end.

(** [isinstance(x, list) and all(isinstance(i, str) for i in x)] *)
Definition is_list_of_str (x : pyval) : bool :=
  match x with PyList l => forallb is_str l | _ => false end.

(** [isinstance(attr_value, v)] for the plain classes, the [List[str]] test
    for the generic one. *)
Definition conforms (v : annotation) (x : pyval) : bool :=
  match v with
  | Ann_str => is_str x
  | Ann_int => is_int x
  | Ann_List_str => is_list_of_str x
  end.

(** ** [validate_annotations] *)

(** One attribute of the tested instance: its name, its type hint and the
    value [getattr] returns, in the order of [get_type_hints]. *)
Definition attribute : Type := (string * annotation * pyval)%type.

Definition check_attribute (a : attribute) : result unit :=
  let '(k, v, attr_value) := a in
  match v with
  | Ann_List_str =>
      assert (is_list_of_str attr_value)
        ("Expected " ++ k ++ " to be of type List[str], got "
           ++ type_repr attr_value ++ " instead.")
  | _ =>
      assert (conforms v attr_value)
        ("Expected " ++ k ++ " to be of type " ++ annotation_repr v ++ ", got "
           ++ type_repr attr_value ++ " instead.")
  end.

Fixpoint validate_annotations (tested_instance : list attribute) : result unit :=
  match tested_instance with
  | [] => ok tt
  | a :: rest => check_attribute a ;;; validate_annotations rest
  end.

(** ** The entities *)

(** Views of an attribute that has passed its annotation check. *)
Definition to_str (x : pyval) : string :=
  match x with PyStr s => s | _ => "" end.

Definition to_int (x : pyval) : Z :=
  match x with
  | PyInt z => z
  | PyBool b => if b then 1 else 0
  | _ => 0
  end.

Definition to_str_list (x : pyval) : list string :=
  match x with PyList l => map to_str l | _ => [] end.

(** [x in {0, 1, 2, 3}]: membership is by numeric equality, so [True] and
    [2.0] are members as well. *)
Definition in_levels (x : pyval) : bool :=
  match x with
  | PyInt z => existsb (Z.eqb z) [0; 1; 2; 3]
  | PyBool _ => true
  | PyFloat q => existsb (fun z => Qeq_bool q (inject_Z z)) [0; 1; 2; 3]
  | _ => false
  end.

Definition vocabulary : list string := ["APIs"; "Excel"; "SQL"].

(** [set(a).issubset(set(b))] on lists of strings. *)
Definition issubset (a b : list string) : bool :=
  forallb (fun s => existsb (String.eqb s) b) a.

Record Project : Type := mkProject {
  project_name : string;
  hours_saved_per_month : Z;
  hours_to_implement : Z;
  skills_required : list string;
  python_level_required : Z
}.

Record TeamMember : Type := mkTeamMember {
  member_name : string;
  hours_available : Z;
  skills : list string;
  python_level : Z
}.

(** [Project(name, hours_saved_per_month, hours_to_implement, skills_required,
    python_level_required)]: the generated [__init__] followed by
    [__post_init__]. *)
Definition new_Project
    (name hours_saved hours_impl skills_req level_req : pyval) : result Project :=
  validate_annotations
    [ ("name", Ann_str, name);
      ("hours_saved_per_month", Ann_int, hours_saved);
      ("hours_to_implement", Ann_int, hours_impl);
      ("skills_required", Ann_List_str, skills_req);
      ("python_level_required", Ann_int, level_req) ] ;;;
  assert (in_levels level_req) "Invalid Python level required" ;;;
  assert (issubset (to_str_list skills_req) vocabulary) "Invalid skills required" ;;;
  ok (mkProject (to_str name) (to_int hours_saved) (to_int hours_impl)
        (to_str_list skills_req) (to_int level_req)).

(** [TeamMember(name, hours_available, skills, python_level)] *)
Definition new_TeamMember
    (name hours skills_ level : pyval) : result TeamMember :=
  validate_annotations
    [ ("name", Ann_str, name);
      ("hours_available", Ann_int, hours);
      ("skills", Ann_List_str, skills_);
      ("python_level", Ann_int, level) ] ;;;
  assert (in_levels level) "Invalid Python level" ;;;
  assert (issubset (to_str_list skills_) vocabulary) "Invalid skills" ;;;
  ok (mkTeamMember (to_str name) (to_int hours) (to_str_list skills_)
        (to_int level)).

(** A list of Python strings. *)
Definition py_strs (l : list string) : pyval := PyList (map PyStr l).

(** The reference data of the notebook. *)
Definition projects : list Project :=
  [ mkProject "Secondary Deliverables reporting" 20 160 ["SQL"; "Excel"] 2;
    mkProject "I&M Work Order generation" 40 200 ["SQL"; "Excel"; "APIs"] 1;
    mkProject "ISS" 5 80 ["SQL"] 1;
    mkProject "Network Interventions lists" 5 40 ["SQL"] 1;
    mkProject "Pulse Report report generation" 10 80 ["SQL"; "APIs"] 3 ].

Definition team : list TeamMember :=
  [ mkTeamMember "Kermit the Frog" 180 ["SQL"; "Excel"] 2;
    mkTeamMember "Sweetums" 140 ["Excel"] 1;
    mkTeamMember "Dr Bunsen Honeydew" 160 ["APIs"; "SQL"; "Excel"] 3;
    mkTeamMember "Fozzie the Bear" 220 ["SQL"; "Excel"] 2;
    mkTeamMember "Pepe the King Prawn" 120 ["SQL"; "Excel"] 1;
    mkTeamMember "Rowlf the Dog" 140 ["APIs"; "SQL"; "Excel"] 3 ].

(** ** The PuLP objects the notebook builds *)

(** A decision variable is known by the key under which [LpVariable.dicts]
    files it: a project name in [project_variables], a pair of a member name
    and a project name in [team_project_variables]. *)
Inductive LpVariable : Type :=
| SelectProject (p : string)
| Assign (tm p : string).

Definition project_variables (key : string) : LpVariable := SelectProject key.

Definition team_project_variables (key : string * string) : LpVariable :=
  Assign (fst key) (snd key).

(** The values of the two dictionaries: every variable that exists. *)
Definition declared_variables (projects : list Project) (team : list TeamMember)
  : list LpVariable :=
  map (fun p => project_variables (project_name p)) projects
  ++ flat_map (fun tm =>
       map (fun p => team_project_variables (member_name tm, project_name p))
         projects) team.

(** A linear expression: coefficients on variables, and a constant. *)
Record LpAffineExpression : Type := mkExpr {
  terms : list (LpVariable * Z);
  constant : Z
}.

(** [x * k] *)
Definition times (x : LpVariable) (k : Z) : LpAffineExpression :=
  mkExpr [(x, k)] 0.

(** A variable, or an integer, used where an expression is expected. *)
Definition of_var (x : LpVariable) : LpAffineExpression := times x 1.
Definition of_int (k : Z) : LpAffineExpression := mkExpr [] k.

Definition lpSum (l : list LpAffineExpression) : LpAffineExpression :=
  fold_right (fun e acc => mkExpr (terms e ++ terms acc) (constant e + constant acc))
    (mkExpr [] 0) l.

(** [lhs <= rhs], [lhs == rhs], [lhs >= rhs] *)
Inductive LpConstraint : Type :=
| LpLE (lhs rhs : LpAffineExpression)
| LpEQ (lhs rhs : LpAffineExpression)
| LpGE (lhs rhs : LpAffineExpression).

(** [LpProblem(name="Project-Selection", sense=LpMaximize)]: the objective
    and the constraints by name, in insertion order. *)
Record LpProblem : Type := mkProblem {
  objective : option LpAffineExpression;
  constraints : list (string * LpConstraint)
}.

Definition empty_problem : LpProblem := mkProblem None [].

(** pulp stores a constraint name with each of the characters [-], [+], [[],
    []] and the space replaced by an underscore; every other character,
    [>] and [/] among them, is kept. *)
Definition illegal_chars : list ascii :=
  ["-"; "+"; "["; "]"; " "]%char.

Fixpoint lp_name (s : string) : string :=
  match s with
  | EmptyString => EmptyString
  | String c rest =>
      String (if existsb (Ascii.eqb c) illegal_chars then "_"%char else c)
        (lp_name rest)
  end.

(** ** Statements on the global [problem] *)

(** A notebook statement acts on the global [problem]; when it raises, the
    problem keeps what earlier statements added. *)
Definition Stmt (A : Type) : Type := LpProblem -> result A * LpProblem.

Definition ret {A} (a : A) : Stmt A := fun pb => (ok a, pb).

Definition seq {A B} (s : Stmt A) (k : Stmt B) : Stmt B :=
  fun pb =>
    match s pb with
    | (inl e, pb') => (inl e, pb')
    | (inr _, pb') => k pb'
    end.

Notation "s >> k" := (seq s k) (at level 62, right associativity).

(** [for x in l: body] *)
Fixpoint for_each {A} (l : list A) (body : A -> Stmt unit) : Stmt unit :=
  match l with
  | [] => ret tt
  | x :: rest => body x >> for_each rest body
  end.

(** [problem += (expression, name)]: sets the objective. *)
Definition set_objective (e : LpAffineExpression) (name : string) : Stmt unit :=
  fun pb => (ok tt, mkProblem (Some e) (constraints pb)).

(** [problem += (constraint, name)]: pulp's [addConstraint] raises
    [PulpError] when the name is already taken. *)
Definition add_constraint (c : LpConstraint) (name : string) : Stmt unit :=
  fun pb =>
    let n := lp_name name in
    if existsb (String.eqb n) (map fst (constraints pb))
    then (raise (PulpError ("overlapping constraint names: " ++ n)), pb)
    else (ok tt, mkProblem (objective pb) (constraints pb ++ [(n, c)])).

(** ** The model *)

(** The test of the gating cell: the member lacks a required skill or is
    below the required Python level. *)
Definition unqualified (p : Project) (tm : TeamMember) : bool :=
  negb (issubset (skills_required p) (skills tm))
  || (python_level tm <? python_level_required p).

Definition objective_expression (projects : list Project) : LpAffineExpression :=
  lpSum (map (fun p =>
    times (project_variables (project_name p)) (hours_saved_per_month p)) projects).

(** The cell the notebook keeps commented out, with its bound. *)
Definition max_concurrent_cell (bound : Z) (projects : list Project) : Stmt unit :=
  add_constraint
    (LpLE (lpSum (map (fun p => of_var (project_variables (project_name p))) projects))
          (of_int bound))
    "Max_Concurrent_Projects".

Definition only_if_selected_cell (projects : list Project) (team : list TeamMember)
  : Stmt unit :=
  for_each team (fun tm =>
    for_each projects (fun p =>
      add_constraint
        (LpLE (of_var (team_project_variables (member_name tm, project_name p)))
              (of_var (project_variables (project_name p))))
        ("Assign_" ++ member_name tm ++ "_" ++ project_name p
           ++ "_OnlyIfProjectSelected"))).

Definition skill_level_cell (projects : list Project) (team : list TeamMember)
  : Stmt unit :=
  for_each projects (fun p =>
    for_each team (fun tm =>
      if unqualified p tm
      then add_constraint
             (LpEQ (of_var (team_project_variables (member_name tm, project_name p)))
                   (of_int 0))
             ("Skill_Python_Level_Match_" ++ member_name tm ++ "_" ++ project_name p)
      else ret tt)).

Definition total_hours_assigned (projects : list Project) (tm : TeamMember)
  : LpAffineExpression :=
  lpSum (map (fun p =>
    times (team_project_variables (member_name tm, project_name p))
          (hours_to_implement p)) projects).

Definition hours_available_cell (projects : list Project) (team : list TeamMember)
  : Stmt unit :=
  for_each team (fun tm =>
    add_constraint
      (LpLE (total_hours_assigned projects tm) (of_int (hours_available tm)))
      ("Hours_Available_" ++ member_name tm)).

Definition total_team_assigned (team : list TeamMember) (p : Project)
  : LpAffineExpression :=
  lpSum (map (fun tm =>
    of_var (team_project_variables (member_name tm, project_name p))) team).

Definition team_assignment_cell (projects : list Project) (team : list TeamMember)
  : Stmt unit :=
  for_each projects (fun p =>
    add_constraint
      (LpGE (total_team_assigned team p) (of_var (project_variables (project_name p))))
      ("Team_Assignment_" ++ project_name p)).

(** Modelled from the spec: the bound [max_concurrent_projects] as an input
    of the build, absent or an integer that is not negative, as the spec's
    Model Builder takes it.  The notebook has no such input: it carries the
    cap cell commented out, with the literal bound 2.  [None] is the notebook
    as it stands, [Some bound] the cell switched on with that bound. *)
Definition build_model (max_concurrent_projects : option N)
    (projects : list Project) (team : list TeamMember) : Stmt unit :=
  set_objective (objective_expression projects) "Total Hours Saved" >>
  match max_concurrent_projects with
  | Some bound => max_concurrent_cell (Z.of_N bound) projects
  | None => ret tt
  end >>
  only_if_selected_cell projects team >>
  skill_level_cell projects team >>
  hours_available_cell projects team >>
  team_assignment_cell projects team.

(** ** Solved values *)

(** [varValue] of every variable: [None] while unset, else the float it
    holds. *)
Definition assignment : Type := LpVariable -> option Q.

Local Open Scope Q_scope.

Definition value (v : assignment) (x : LpVariable) : Q :=
  match v x with
  | Some q => q
  | None => 0
  end.

Definition eval (v : assignment) (e : LpAffineExpression) : Q :=
  fold_right (fun t acc => inject_Z (snd t) * value v (fst t) + acc)
    (inject_Z (constant e)) (terms e).

Definition holds (v : assignment) (c : LpConstraint) : Prop :=
  match c with
  | LpLE lhs rhs => eval v lhs <= eval v rhs
  | LpEQ lhs rhs => eval v lhs == eval v rhs
  | LpGE lhs rhs => eval v lhs >= eval v rhs
  end.

(** [cat="Binary"] *)
Definition binary (v : assignment) (x : LpVariable) : Prop :=
  exists q, v x = Some q /\ (q == 0 \/ q == 1).

(** The values satisfy the problem over the given variables. *)
Definition feasible (vars : list LpVariable) (pb : LpProblem) (v : assignment)
  : Prop :=
  (forall x, In x vars -> binary v x)
  /\ (forall n c, In (n, c) (constraints pb) -> holds v c).

Definition objective_value (pb : LpProblem) (v : assignment) : Q :=
  match objective pb with
  | Some e => eval v e
  | None => 0
  end.

(** [sense=LpMaximize] *)
Definition optimal (vars : list LpVariable) (pb : LpProblem) (v : assignment)
  : Prop :=
  feasible vars pb v
  /\ forall v', feasible vars pb v' -> objective_value pb v' <= objective_value pb v.

(** [problem.status], and the [LpStatus] table of pulp. *)
Inductive status : Type :=
| StatusNotSolved
| StatusOptimal
| StatusInfeasible
| StatusUnbounded
| StatusUndefined.

Definition LpStatus (s : status) : string :=
  match s with
  | StatusNotSolved => "Not Solved"
  | StatusOptimal => "Optimal"
  | StatusInfeasible => "Infeasible"
  | StatusUnbounded => "Unbounded"
  | StatusUndefined => "Undefined"
  end.

(** The contract of [problem.solve()], the solver being outside the
    notebook.  On a problem all of whose variables are binary it leaves an
    optimum with status Optimal, or status Infeasible when no values satisfy
    the constraints (the variables then hold whatever the solver wrote
    last). *)
Inductive solve (vars : list LpVariable) (pb : LpProblem)
  : status -> assignment -> Prop :=
| solve_optimal v :
    optimal vars pb v -> solve vars pb StatusOptimal v
| solve_infeasible v :
    (forall v', ~ feasible vars pb v') -> solve vars pb StatusInfeasible v.

(** ** Reading the results *)

(** [x.varValue == 1] *)
Definition equals_one (varValue : option Q) : bool :=
  match varValue with
  | Some q => Qeq_bool q 1
  | None => false
  end.

Definition selected_projects (v : assignment) (projects : list Project)
  : list string :=
  map project_name
    (filter (fun p => equals_one (v (project_variables (project_name p)))) projects).

Definition team_assignments (v : assignment) (projects : list Project)
    (team : list TeamMember) : list (string * string) :=
  flat_map (fun tm =>
    map (fun p => (member_name tm, project_name p))
      (filter (fun p =>
         equals_one (v (team_project_variables (member_name tm, project_name p))))
         projects)) team.

Definition total_hours_saved (v : assignment) (projects : list Project) : Z :=
  fold_right Z.add 0%Z
    (map hours_saved_per_month
      (filter (fun p => equals_one (v (project_variables (project_name p)))) projects)).

(** What the summary cell prints. *)
Record summary : Type := mkSummary {
  summary_status : string;
  summary_selected : list string;
  summary_assignments : list (string * string);
  summary_total : Z
}.

Definition summarise (s : status) (v : assignment)
    (projects : list Project) (team : list TeamMember) : summary :=
  mkSummary (LpStatus s) (selected_projects v projects)
    (team_assignments v projects team) (total_hours_saved v projects).

(** The build of the notebook's own data, from the empty problem. *)
Definition notebook_build : result unit * LpProblem :=
  build_model None projects team empty_problem.

(** The values the notebook's run printed. *)
Definition printed_values : assignment :=
  fun x =>
    match x with
    | SelectProject p =>
        Some (if existsb (String.eqb p)
                   ["Secondary Deliverables reporting"; "ISS";
                    "Network Interventions lists";
                    "Pulse Report report generation"]%string
              then 1 else 0)
    | Assign tm p =>
        Some (if existsb (fun k => String.eqb tm (fst k) && String.eqb p (snd k))
                   [("Dr Bunsen Honeydew", "Secondary Deliverables reporting");
                    ("Pepe the King Prawn", "ISS");
                    ("Pepe the King Prawn", "Network Interventions lists");
                    ("Rowlf the Dog", "Pulse Report report generation")]%string
              then 1 else 0)
    end.

(** Every variable at zero. *)
Definition all_zero : assignment := fun _ => Some 0.

(** A team with a member whose available hours are overdrawn, beside one
    who can take the project; and the values that meet every constraint but
    the overdrawn member's hours, the project taken by the other member. *)
Definition overdrawn_team : list TeamMember :=
  [mkTeamMember "Sweetums" (-140) ["Excel"] 1;
   mkTeamMember "Pepe the King Prawn" 120 ["SQL"; "Excel"] 1].

Definition one_project : list Project := [mkProject "ISS" 5 80 ["SQL"] 1].

Definition left_behind : assignment :=
  fun x =>
    match x with
    | SelectProject _ => Some 1
    | Assign tm _ => Some (if String.eqb tm "Pepe the King Prawn" then 1 else 0)
    end.

(** Two of the notebook's projects selected, both taken by one member. *)
Definition two_selected : assignment :=
  fun x =>
    match x with
    | SelectProject p =>
        Some (if existsb (String.eqb p) ["ISS"; "Network Interventions lists"]%string
              then 1 else 0)
    | Assign tm p =>
        Some (if String.eqb tm "Pepe the King Prawn"
                 && existsb (String.eqb p) ["ISS"; "Network Interventions lists"]%string
              then 1 else 0)
    end.

(** The double nearest to 0.999999. *)
Definition almost_one : Q := 9007190247541737 # 9007199254740992.

(** ** Decidable forms, for checking given values *)

Definition holdsb (v : assignment) (c : LpConstraint) : bool :=
  match c with
  | LpLE lhs rhs => Qle_bool (eval v lhs) (eval v rhs)
  | LpEQ lhs rhs => Qeq_bool (eval v lhs) (eval v rhs)
  | LpGE lhs rhs => Qle_bool (eval v rhs) (eval v lhs)
  end.

Definition binaryb (v : assignment) (x : LpVariable) : bool :=
  match v x with
  | Some q => Qeq_bool q 0 || Qeq_bool q 1
  | None => false
  end.

Definition feasibleb (vars : list LpVariable) (pb : LpProblem) (v : assignment)
  : bool :=
  forallb (binaryb v) vars && forallb (fun nc => holdsb v (snd nc)) (constraints pb).

Definition Qsum (l : list Q) : Q := fold_right Qplus 0 l.

Definition Zsum (l : list Z) : Z := fold_right Z.add 0%Z l.

(** The statement leaves in the problem every constraint it found there. *)
Definition keeps (s : Stmt unit) : Prop :=
  forall pb r pb', s pb = (r, pb') ->
    forall nc, In nc (constraints pb) -> In nc (constraints pb').

(** Whenever the statement completes, the problem holds the constraint. *)
Definition emits (s : Stmt unit) (nc : string * LpConstraint) : Prop :=
  forall pb u pb', s pb = (inr u, pb') -> In nc (constraints pb').

(** The cap cell as the build runs it. *)
Definition cap_constraint (bound : Z) (projects : list Project)
  : string * LpConstraint :=
  ("Max_Concurrent_Projects",
   LpLE (lpSum (map (fun p => of_var (project_variables (project_name p))) projects))
        (of_int bound)).

(** ** [get_level_of_python_descriptor] *)

Inductive value_error : Type :=
| ValueError (msg : string).

Definition get_level_of_python_descriptor (level_of_python : Z)
  : value_error + string :=
  match level_of_python with
  | 0%Z => inr "No Python"
  | 1%Z => inr "Basic Python"
  | 2%Z => inr "Intermediate Python"
  | 3%Z => inr "Advanced Python"
  | _ => inl (ValueError "Only values of 0-3 accepted")
  end.

(** ** The problem a build leaves, row by row *)

(** The constraints each cell adds, under the names pulp files them, in the
    order the loops run. *)
Definition only_if_selected_rows (projects : list Project) (team : list TeamMember)
  : list (string * LpConstraint) :=
  flat_map (fun tm =>
    map (fun p =>
      (lp_name ("Assign_" ++ member_name tm ++ "_" ++ project_name p
                  ++ "_OnlyIfProjectSelected"),
       LpLE (of_var (team_project_variables (member_name tm, project_name p)))
            (of_var (project_variables (project_name p))))) projects) team.

Definition skill_level_rows (projects : list Project) (team : list TeamMember)
  : list (string * LpConstraint) :=
  flat_map (fun p =>
    flat_map (fun tm =>
      if unqualified p tm
      then [(lp_name ("Skill_Python_Level_Match_" ++ member_name tm ++ "_"
                        ++ project_name p),
             LpEQ (of_var (team_project_variables (member_name tm, project_name p)))
                  (of_int 0))]
      else []) team) projects.

Definition hours_available_rows (projects : list Project) (team : list TeamMember)
  : list (string * LpConstraint) :=
  map (fun tm =>
    (lp_name ("Hours_Available_" ++ member_name tm),
     LpLE (total_hours_assigned projects tm) (of_int (hours_available tm)))) team.

Definition team_assignment_rows (projects : list Project) (team : list TeamMember)
  : list (string * LpConstraint) :=
  map (fun p =>
    (lp_name ("Team_Assignment_" ++ project_name p),
     LpGE (total_team_assigned team p) (of_var (project_variables (project_name p)))))
    projects.

Definition cap_rows (max_concurrent_projects : option N) (projects : list Project)
  : list (string * LpConstraint) :=
  match max_concurrent_projects with
  | Some bound => [cap_constraint (Z.of_N bound) projects]
  | None => []
  end.

Definition rows (max_concurrent_projects : option N)
    (projects : list Project) (team : list TeamMember)
  : list (string * LpConstraint) :=
  cap_rows max_concurrent_projects projects
  ++ only_if_selected_rows projects team
  ++ skill_level_rows projects team
  ++ hours_available_rows projects team
  ++ team_assignment_rows projects team.

(** Adding rows one after the other: the first name that is already taken
    stops the run, and the rows before it stay. *)
Fixpoint add_rows (l : list (string * LpConstraint)) (pb : LpProblem)
  : result unit * LpProblem :=
  match l with
  | [] => (inr tt, pb)
  | (n, c) :: rest =>
      if existsb (String.eqb n) (map fst (constraints pb))
      then (inl (PulpError ("overlapping constraint names: " ++ n)), pb)
      else add_rows rest (mkProblem (objective pb) (constraints pb ++ [(n, c)]))
  end.

(** The statement does what adding these rows does. *)
Definition runs_as (s : Stmt unit) (l : list (string * LpConstraint)) : Prop :=
  forall pb, s pb = add_rows l pb.

(** No string occurs twice. *)
Fixpoint distinctb (l : list string) : bool :=
  match l with
  | [] => true
  | x :: rest => negb (existsb (String.eqb x) rest) && distinctb rest
  end.

(** * Properties *)

(** ** Construction *)

Lemma rbind_inr {A B} (r : result A) (k : A -> result B) (b : B) :
  rbind r k = inr b -> exists a, r = inr a /\ k a = inr b.
Proof.
  destruct r as [e | a]; simpl; intros H; [discriminate | eauto].
Qed.

Lemma assert_inr (cond : bool) (msg : string) (u : unit) :
  assert cond msg = inr u -> cond = true.
Proof.
  destruct cond; simpl; [reflexivity | discriminate].
Qed.

Lemma assert_false (cond : bool) (msg : string) :
  cond = false -> assert cond msg = inl (AssertionError msg).
Proof.
  intros ->; reflexivity.
Qed.

Lemma check_attribute_inr (k : string) (a : annotation) (x : pyval) (u : unit) :
  check_attribute (k, a, x) = inr u -> conforms a x = true.
Proof.
  destruct a; simpl; intros H; apply assert_inr in H; exact H.
Qed.

Lemma check_attribute_fails (k : string) (a : annotation) (x : pyval) :
  conforms a x = false -> exists msg, check_attribute (k, a, x) = inl (AssertionError msg).
Proof.
  intros H; destruct a; simpl in *; rewrite H; simpl; eauto.
Qed.

Lemma validate_annotations_inr (l : list attribute) (u : unit) :
  validate_annotations l = inr u ->
  forall k a x, In (k, a, x) l -> conforms a x = true.
Proof.
  induction l as [| [[k0 a0] x0] l IH]; simpl; intros H k a x Hin.
  - contradiction.
  - apply rbind_inr in H. destruct H as [u1 [H1 H2]].
    destruct Hin as [Heq | Hin].
    + inversion Heq; subst. exact (check_attribute_inr _ _ _ _ H1).
    + eapply IH; eauto.
Qed.

Lemma validate_annotations_fails (l : list attribute) (k : string)
    (a : annotation) (x : pyval) :
  In (k, a, x) l -> conforms a x = false ->
  exists msg, validate_annotations l = inl (AssertionError msg).
Proof.
  induction l as [| [[k0 a0] x0] l IH]; intros Hin Hc.
  - contradiction.
  - cbn [validate_annotations].
    destruct (conforms a0 x0) eqn:C.
    + assert (E : check_attribute (k0, a0, x0) = inr tt).
      { destruct a0; simpl in *; rewrite C; reflexivity. }
      rewrite E. cbn [rbind].
      destruct Hin as [Heq | Hin].
      * inversion Heq; subst. congruence.
      * apply IH; assumption.
    + destruct (check_attribute_fails k0 a0 x0 C) as [msg Hm].
      rewrite Hm. cbn [rbind]. eauto.
Qed.

Lemma validate_annotations_conforming (l : list attribute) :
  (forall k a x, In (k, a, x) l -> conforms a x = true) ->
  validate_annotations l = inr tt.
Proof.
  induction l as [| [[k0 a0] x0] l IH]; intros H.
  - reflexivity.
  - assert (C : conforms a0 x0 = true) by (eapply H; left; reflexivity).
    assert (E : check_attribute (k0, a0, x0) = inr tt).
    { destruct a0; simpl in *; rewrite C; reflexivity. }
    cbn [validate_annotations]. rewrite E. cbn [rbind].
    apply IH. intros; eapply H; right; eauto.
Qed.

Lemma issubset_incl (a b : list string) :
  issubset a b = true <-> (forall s, In s a -> In s b).
Proof.
  unfold issubset. rewrite forallb_forall. split; intros H s Hs.
  - apply H in Hs. apply existsb_exists in Hs.
    destruct Hs as [s' [Hin Heq]]. apply String.eqb_eq in Heq. subst; exact Hin.
  - apply existsb_exists. exists s. split; [auto | apply String.eqb_refl].
Qed.

Lemma in_levels_int (z : Z) :
  in_levels (PyInt z) = true <-> (0 <= z <= 3)%Z.
Proof.
  simpl. rewrite !orb_true_iff, !Z.eqb_eq. lia.
Qed.

Lemma is_list_of_str_py_strs (l : list string) : is_list_of_str (py_strs l) = true.
Proof.
  simpl. rewrite forallb_forall. intros x Hx.
  apply in_map_iff in Hx. destruct Hx as [s [<- _]]. reflexivity.
Qed.

Lemma to_str_list_py_strs (l : list string) : to_str_list (py_strs l) = l.
Proof.
  simpl. rewrite map_map. simpl. apply map_id.
Qed.

Lemma is_list_of_str_iff (x : pyval) :
  is_list_of_str x = true <-> exists l, x = py_strs l.
Proof.
  split.
  - destruct x as [| | | | | l]; simpl; try discriminate.
    intros H. exists (map to_str l). unfold py_strs. f_equal.
    induction l as [| y l IH]; simpl in *; [reflexivity |].
    apply andb_prop in H. destruct H as [Hy Hl].
    destruct y; try discriminate. simpl. f_equal. auto.
  - intros [l ->]. apply is_list_of_str_py_strs.
Qed.

Lemma is_int_iff (x : pyval) :
  is_int x = true <-> (exists z, x = PyInt z) \/ (exists b, x = PyBool b).
Proof.
  split.
  - destruct x; simpl; try discriminate; eauto.
  - intros [[z ->] | [b ->]]; reflexivity.
Qed.

Lemma is_str_iff (x : pyval) : is_str x = true <-> exists s, x = PyStr s.
Proof.
  split.
  - destruct x; simpl; try discriminate; eauto.
  - intros [s ->]; reflexivity.
Qed.

Lemma validate_annotations_inl (l : list attribute) (e : exn) :
  validate_annotations l = inl e -> exists msg, e = AssertionError msg.
Proof.
  induction l as [| [[k0 a0] x0] l IH]; intros H.
  - discriminate.
  - cbn [validate_annotations] in H.
    destruct (conforms a0 x0) eqn:C.
    + assert (E : check_attribute (k0, a0, x0) = inr tt).
      { destruct a0; simpl in *; rewrite C; reflexivity. }
      rewrite E in H. cbn [rbind] in H. auto.
    + destruct (check_attribute_fails k0 a0 x0 C) as [msg Hm].
      rewrite Hm in H. cbn [rbind] in H. inversion H. eauto.
Qed.

(** What a successful [Project(...)] says about its arguments. *)
Lemma new_Project_inr (name b e sk l : pyval) (p : Project) :
  new_Project name b e sk l = inr p ->
  (is_str name = true /\ is_int b = true /\ is_int e = true
   /\ is_list_of_str sk = true /\ is_int l = true)
  /\ in_levels l = true
  /\ issubset (to_str_list sk) vocabulary = true
  /\ p = mkProject (to_str name) (to_int b) (to_int e) (to_str_list sk) (to_int l).
Proof.
  unfold new_Project. intros H.
  apply rbind_inr in H. destruct H as [u1 [Hv H]].
  apply rbind_inr in H. destruct H as [u2 [Hl H]].
  apply rbind_inr in H. destruct H as [u3 [Hs H]].
  apply assert_inr in Hl. apply assert_inr in Hs.
  pose proof (validate_annotations_inr _ _ Hv) as Hc.
  repeat split; try assumption.
  - apply (Hc "name" Ann_str name). simpl; tauto.
  - apply (Hc "hours_saved_per_month" Ann_int b). simpl; tauto.
  - apply (Hc "hours_to_implement" Ann_int e). simpl; tauto.
  - apply (Hc "skills_required" Ann_List_str sk). simpl; tauto.
  - apply (Hc "python_level_required" Ann_int l). simpl; tauto.
  - unfold ok in H. congruence.
Qed.

Lemma new_TeamMember_inr (name c sk l : pyval) (tm : TeamMember) :
  new_TeamMember name c sk l = inr tm ->
  (is_str name = true /\ is_int c = true
   /\ is_list_of_str sk = true /\ is_int l = true)
  /\ in_levels l = true
  /\ issubset (to_str_list sk) vocabulary = true
  /\ tm = mkTeamMember (to_str name) (to_int c) (to_str_list sk) (to_int l).
Proof.
  unfold new_TeamMember. intros H.
  apply rbind_inr in H. destruct H as [u1 [Hv H]].
  apply rbind_inr in H. destruct H as [u2 [Hl H]].
  apply rbind_inr in H. destruct H as [u3 [Hs H]].
  apply assert_inr in Hl. apply assert_inr in Hs.
  pose proof (validate_annotations_inr _ _ Hv) as Hc.
  repeat split; try assumption.
  - apply (Hc "name" Ann_str name). simpl; tauto.
  - apply (Hc "hours_available" Ann_int c). simpl; tauto.
  - apply (Hc "skills" Ann_List_str sk). simpl; tauto.
  - apply (Hc "python_level" Ann_int l). simpl; tauto.
  - unfold ok in H. congruence.
Qed.

(** Every failure of a constructor is an [AssertionError]. *)
Lemma new_Project_inl (name b e sk l : pyval) (x : exn) :
  new_Project name b e sk l = inl x -> exists msg, x = AssertionError msg.
Proof.
  unfold new_Project. intros H.
  destruct (validate_annotations _) as [e0 | u] eqn:Hv; cbn [rbind] in H.
  - inversion H; subst. eapply validate_annotations_inl; eauto.
  - destruct (in_levels l); cbn [assert rbind ok raise] in H;
      [| inversion H; eauto].
    destruct (issubset _ _); cbn [assert rbind ok raise] in H;
      [discriminate | inversion H; eauto].
Qed.

Lemma new_TeamMember_inl (name c sk l : pyval) (x : exn) :
  new_TeamMember name c sk l = inl x -> exists msg, x = AssertionError msg.
Proof.
  unfold new_TeamMember. intros H.
  destruct (validate_annotations _) as [e0 | u] eqn:Hv; cbn [rbind] in H.
  - inversion H; subst. eapply validate_annotations_inl; eauto.
  - destruct (in_levels l); cbn [assert rbind ok raise] in H;
      [| inversion H; eauto].
    destruct (issubset _ _); cbn [assert rbind ok raise] in H;
      [discriminate | inversion H; eauto].
Qed.

(** A constructor that cannot succeed raises an [AssertionError]. *)
Lemma Project_fails_when (name b e sk l : pyval) :
  (forall p, new_Project name b e sk l <> inr p) ->
  exists msg, new_Project name b e sk l = inl (AssertionError msg).
Proof.
  intros H. destruct (new_Project name b e sk l) as [x | p] eqn:E.
  - destruct (new_Project_inl _ _ _ _ _ _ E) as [msg ->]. eauto.
  - exfalso. apply (H p). reflexivity.
Qed.

Lemma TeamMember_fails_when (name c sk l : pyval) :
  (forall tm, new_TeamMember name c sk l <> inr tm) ->
  exists msg, new_TeamMember name c sk l = inl (AssertionError msg).
Proof.
  intros H. destruct (new_TeamMember name c sk l) as [x | tm] eqn:E.
  - destruct (new_TeamMember_inl _ _ _ _ _ E) as [msg ->]. eauto.
  - exfalso. apply (H tm). reflexivity.
Qed.

(** C3, the claim as stated, refuted: a [Project] with a negative benefit
    and a negative effort, and a [TeamMember] with a negative capacity, are
    constructed, and hold the negative numbers. *)
Lemma negative_fields_are_constructed :
  new_Project (PyStr "ISS") (PyInt (-5)) (PyInt (-80)) (py_strs ["SQL"]) (PyInt 1)
    = inr (mkProject "ISS" (-5) (-80) ["SQL"] 1)
  /\ new_TeamMember (PyStr "Sweetums") (PyInt (-140)) (py_strs ["Excel"]) (PyInt 1)
    = inr (mkTeamMember "Sweetums" (-140) ["Excel"] 1).
Proof.
  split; reflexivity.
Qed.

(** C3, amended: construction does not look at the sign of benefit, effort
    or capacity.  With a string name, integer numbers of either sign, skills
    within the vocabulary and a level between 0 and 3, the [Project] and the
    [TeamMember] are constructed and hold the numbers as given. *)
Theorem construction_keeps_any_sign
    (n : string) (b e c : Z) (sk : list string) (l : Z) :
  (0 <= l <= 3)%Z ->
  (forall s, In s sk -> In s vocabulary) ->
  new_Project (PyStr n) (PyInt b) (PyInt e) (py_strs sk) (PyInt l)
    = inr (mkProject n b e sk l)
  /\ new_TeamMember (PyStr n) (PyInt c) (py_strs sk) (PyInt l)
    = inr (mkTeamMember n c sk l).
Proof.
  intros Hl Hs.
  apply in_levels_int in Hl. apply issubset_incl in Hs.
  unfold new_Project, new_TeamMember.
  rewrite !validate_annotations_conforming.
  - cbn [rbind]. rewrite Hl. cbn [assert rbind ok].
    rewrite !to_str_list_py_strs, Hs. cbn [assert rbind ok].
    split; reflexivity.
  - intros k a x Hin. simpl in Hin.
    destruct Hin as [H | [H | [H | [H | []]]]]; inversion H; subst;
      try reflexivity; apply is_list_of_str_py_strs.
  - intros k a x Hin. simpl in Hin.
    destruct Hin as [H | [H | [H | [H | [H | []]]]]]; inversion H; subst;
      try reflexivity; apply is_list_of_str_py_strs.
Qed.

Lemma construction_keeps_any_sign_witness :
  new_Project (PyStr "ISS") (PyInt (-5)) (PyInt (-80)) (py_strs ["SQL"]) (PyInt 1)
    = inr (mkProject "ISS" (-5) (-80) ["SQL"] 1)
  /\ new_TeamMember (PyStr "ISS") (PyInt (-140)) (py_strs ["SQL"]) (PyInt 1)
    = inr (mkTeamMember "ISS" (-140) ["SQL"] 1).
Proof.
  apply (construction_keeps_any_sign "ISS" (-5) (-80) (-140) ["SQL"] 1).
  - lia.
  - intros s Hs. simpl in *. tauto.
Defined.

(** C9: a [Project] or [TeamMember] whose skills are not all within
    {APIs, Excel, SQL} (the skill Java, say), or whose level is an integer
    outside 0..3, is refused with an [AssertionError]; and whatever is
    constructed has its skills within the vocabulary and its level in
    0..3. *)
Theorem skills_and_level_are_validated :
  (forall name b e l sk s,
      In s sk -> ~ In s vocabulary ->
      exists msg, new_Project name b e (py_strs sk) l = inl (AssertionError msg))
  /\ (forall name c l sk s,
      In s sk -> ~ In s vocabulary ->
      exists msg, new_TeamMember name c (py_strs sk) l = inl (AssertionError msg))
  /\ (forall name b e sk z,
      ~ (0 <= z <= 3)%Z ->
      exists msg, new_Project name b e sk (PyInt z) = inl (AssertionError msg))
  /\ (forall name c sk z,
      ~ (0 <= z <= 3)%Z ->
      exists msg, new_TeamMember name c sk (PyInt z) = inl (AssertionError msg))
  /\ new_Project (PyStr "ISS") (PyInt 5) (PyInt 80) (py_strs ["Java"]) (PyInt 1)
       = inl (AssertionError "Invalid skills required")
  /\ (forall name b e sk l p,
      new_Project name b e sk l = inr p ->
      (forall s, In s (skills_required p) -> In s vocabulary)
      /\ (0 <= python_level_required p <= 3)%Z)
  /\ (forall name c sk l tm,
      new_TeamMember name c sk l = inr tm ->
      (forall s, In s (skills tm) -> In s vocabulary)
      /\ (0 <= python_level tm <= 3)%Z).
Proof.
  assert (Hlevel : forall l, is_int l = true -> in_levels l = true ->
                     (0 <= to_int l <= 3)%Z).
  { intros l Hi Hl. destruct l as [| [|] | z | | |]; simpl in *;
      try discriminate; lia. }
  repeat split.
  - intros name b e l sk s Hin Hout. apply Project_fails_when.
    intros p Hp. apply new_Project_inr in Hp.
    destruct Hp as [_ [_ [Hs _]]]. rewrite to_str_list_py_strs in Hs.
    apply Hout. exact (proj1 (issubset_incl _ _) Hs s Hin).
  - intros name c l sk s Hin Hout. apply TeamMember_fails_when.
    intros tm Hp. apply new_TeamMember_inr in Hp.
    destruct Hp as [_ [_ [Hs _]]]. rewrite to_str_list_py_strs in Hs.
    apply Hout. exact (proj1 (issubset_incl _ _) Hs s Hin).
  - intros name b e sk z Hz. apply Project_fails_when.
    intros p Hp. apply new_Project_inr in Hp.
    destruct Hp as [_ [Hl _]]. apply Hz. apply in_levels_int. exact Hl.
  - intros name c sk z Hz. apply TeamMember_fails_when.
    intros tm Hp. apply new_TeamMember_inr in Hp.
    destruct Hp as [_ [Hl _]]. apply Hz. apply in_levels_int. exact Hl.
  - apply new_Project_inr in H.
    destruct H as [_ [_ [Hs ->]]]. simpl.
    exact (proj1 (issubset_incl _ _) Hs).
  - apply new_Project_inr in H.
    destruct H as [[_ [_ [_ [_ Hi]]]] [Hl [_ ->]]]. simpl.
    apply (Hlevel l Hi Hl).
  - apply new_Project_inr in H.
    destruct H as [[_ [_ [_ [_ Hi]]]] [Hl [_ ->]]]. simpl.
    apply (Hlevel l Hi Hl).
  - apply new_TeamMember_inr in H.
    destruct H as [_ [_ [Hs ->]]]. simpl.
    exact (proj1 (issubset_incl _ _) Hs).
  - apply new_TeamMember_inr in H.
    destruct H as [[_ [_ [_ Hi]]] [Hl [_ ->]]]. simpl.
    apply (Hlevel l Hi Hl).
  - apply new_TeamMember_inr in H.
    destruct H as [[_ [_ [_ Hi]]] [Hl [_ ->]]]. simpl.
    apply (Hlevel l Hi Hl).
Qed.

(** C10, the claim as stated, refuted: [True] is not exactly an [int], its
    type is [bool]; yet a [TeamMember] with [True] for its hours and its
    level, and a [Project] with [True] and [False] for its numbers, are
    constructed. *)
Lemma bool_is_accepted_as_int :
  type_repr (PyBool true) = "<class 'bool'>"
  /\ new_TeamMember (PyStr "Sweetums") (PyBool true) (py_strs ["Excel"]) (PyBool true)
     = inr (mkTeamMember "Sweetums" 1 ["Excel"] 1)
  /\ new_Project (PyStr "ISS") (PyBool true) (PyBool false) (py_strs ["SQL"]) (PyBool true)
     = inr (mkProject "ISS" 1 0 ["SQL"] 1).
Proof.
  repeat split; reflexivity.
Qed.

(** C10, amended: construction checks every attribute against its
    annotation with [isinstance].  A number that is neither an [int] nor a
    [bool] (a float such as 160.0, even though in range), or skills that are
    not a list of [str], makes the constructor raise; a constructed [Project]
    or [TeamMember] had a [str] name, numbers that are [int] or [bool], and a
    list of [str] skills; and a [bool] is accepted for a number, [True]
    counting as 1 and [False] as 0. *)
Theorem annotations_are_enforced :
  (forall name b e sk l p,
      new_Project name b e sk l = inr p ->
      (exists s, name = PyStr s)
      /\ ((exists z, b = PyInt z) \/ (exists x, b = PyBool x))
      /\ ((exists z, e = PyInt z) \/ (exists x, e = PyBool x))
      /\ ((exists z, l = PyInt z) \/ (exists x, l = PyBool x))
      /\ (exists ss, sk = py_strs ss))
  /\ (forall name c sk l tm,
      new_TeamMember name c sk l = inr tm ->
      (exists s, name = PyStr s)
      /\ ((exists z, c = PyInt z) \/ (exists x, c = PyBool x))
      /\ ((exists z, l = PyInt z) \/ (exists x, l = PyBool x))
      /\ (exists ss, sk = py_strs ss))
  /\ (forall name b e sk l x,
      (forall z, x <> PyInt z) -> (forall y, x <> PyBool y) ->
      b = x \/ e = x \/ l = x ->
      exists msg, new_Project name b e sk l = inl (AssertionError msg))
  /\ (forall name c sk l x,
      (forall z, x <> PyInt z) -> (forall y, x <> PyBool y) ->
      c = x \/ l = x ->
      exists msg, new_TeamMember name c sk l = inl (AssertionError msg))
  /\ new_TeamMember (PyStr "Kermit the Frog") (PyFloat 160) (py_strs ["SQL"]) (PyInt 2)
       = inl (AssertionError
           "Expected hours_available to be of type <class 'int'>, got <class 'float'> instead.")
  /\ (forall name b e sk l,
      (forall ss, sk <> py_strs ss) ->
      exists msg, new_Project name b e sk l = inl (AssertionError msg))
  /\ (forall name c sk l,
      (forall ss, sk <> py_strs ss) ->
      exists msg, new_TeamMember name c sk l = inl (AssertionError msg))
  /\ (forall n (x y z : bool) sk,
      (forall s, In s sk -> In s vocabulary) ->
      new_Project (PyStr n) (PyBool x) (PyBool y) (py_strs sk) (PyBool z)
      = inr (mkProject n (if x then 1 else 0) (if y then 1 else 0) sk
               (if z then 1 else 0))
      /\ new_TeamMember (PyStr n) (PyBool x) (py_strs sk) (PyBool z)
      = inr (mkTeamMember n (if x then 1 else 0) sk (if z then 1 else 0))).
Proof.
  assert (Hnot : forall x, (forall z, x <> PyInt z) -> (forall y, x <> PyBool y) ->
                   is_int x = false).
  { intros x Hz Hb. destruct x; try reflexivity; exfalso;
      [eapply Hb | eapply Hz]; reflexivity. }
  split; [| split; [| split; [| split; [| split; [| split; [| split]]]]]].
  - intros name b e sk l p Hp. apply new_Project_inr in Hp.
    destruct Hp as [[Hn [Hb [He [Hs Hl]]]] _].
    apply is_str_iff in Hn. apply is_list_of_str_iff in Hs.
    apply is_int_iff in Hb. apply is_int_iff in He. apply is_int_iff in Hl. auto.
  - intros name c sk l tm Hp. apply new_TeamMember_inr in Hp.
    destruct Hp as [[Hn [Hc [Hs Hl]]] _].
    apply is_str_iff in Hn. apply is_list_of_str_iff in Hs.
    apply is_int_iff in Hc. apply is_int_iff in Hl. auto.
  - intros name b e sk l x Hz Hy Hx. apply Project_fails_when.
    intros p Hp. apply new_Project_inr in Hp.
    destruct Hp as [[_ [Hb [He [_ Hl]]]] _].
    pose proof (Hnot x Hz Hy) as Hi.
    destruct Hx as [-> | [-> | ->]]; congruence.
  - intros name c sk l x Hz Hy Hx. apply TeamMember_fails_when.
    intros tm Hp. apply new_TeamMember_inr in Hp.
    destruct Hp as [[_ [Hc [_ Hl]]] _].
    pose proof (Hnot x Hz Hy) as Hi.
    destruct Hx as [-> | ->]; congruence.
  - reflexivity.
  - intros name b e sk l Hsk. apply Project_fails_when.
    intros p Hp. apply new_Project_inr in Hp.
    destruct Hp as [[_ [_ [_ [Hs _]]]] _].
    apply is_list_of_str_iff in Hs. destruct Hs as [ss ->].
    apply (Hsk ss). reflexivity.
  - intros name c sk l Hsk. apply TeamMember_fails_when.
    intros tm Hp. apply new_TeamMember_inr in Hp.
    destruct Hp as [[_ [_ [Hs _]]] _].
    apply is_list_of_str_iff in Hs. destruct Hs as [ss ->].
    apply (Hsk ss). reflexivity.
  - intros n x y z sk Hs. apply issubset_incl in Hs.
    unfold new_Project, new_TeamMember.
    rewrite !validate_annotations_conforming.
    + cbn [rbind in_levels assert ok]. rewrite !to_str_list_py_strs, Hs.
      split; reflexivity.
    + intros k a v Hin. simpl in Hin.
      destruct Hin as [H | [H | [H | [H | []]]]]; inversion H; subst;
        try reflexivity; apply is_list_of_str_py_strs.
    + intros k a v Hin. simpl in Hin.
      destruct Hin as [H | [H | [H | [H | [H | []]]]]]; inversion H; subst;
        try reflexivity; apply is_list_of_str_py_strs.
Qed.

(** ** Statements *)

Lemma ret_keeps : keeps (ret tt).
Proof.
  intros pb r pb' H nc Hin. inversion H; subst. exact Hin.
Qed.

Lemma set_objective_keeps (e : LpAffineExpression) (n : string) :
  keeps (set_objective e n).
Proof.
  intros pb r pb' H nc Hin. inversion H; subst. exact Hin.
Qed.

Lemma add_constraint_keeps (c : LpConstraint) (n : string) :
  keeps (add_constraint c n).
Proof.
  intros pb r pb' H nc Hin. unfold add_constraint in H.
  destruct (existsb _ _); inversion H; subst; simpl.
  - exact Hin.
  - apply in_or_app. left. exact Hin.
Qed.

Lemma seq_keeps (s k : Stmt unit) : keeps s -> keeps k -> keeps (s >> k).
Proof.
  intros Hs Hk pb r pb' H nc Hin. unfold seq in H.
  destruct (s pb) as [[e | u] pb1] eqn:E.
  - inversion H; subst. eapply Hs; eauto.
  - eapply Hk; [exact H |]. eapply Hs; eauto.
Qed.

Lemma for_each_keeps {A} (l : list A) (body : A -> Stmt unit) :
  (forall x, keeps (body x)) -> keeps (for_each l body).
Proof.
  intros Hb. induction l as [| x l IH]; simpl.
  - apply ret_keeps.
  - apply seq_keeps; auto.
Qed.

Lemma add_constraint_emits (c : LpConstraint) (n : string) :
  emits (add_constraint c n) (lp_name n, c).
Proof.
  intros pb u pb' H. unfold add_constraint in H.
  destruct (existsb _ _); inversion H; subst; simpl.
  apply in_or_app. right. left. reflexivity.
Qed.

Lemma seq_emits_l (s k : Stmt unit) (nc : string * LpConstraint) :
  keeps k -> emits s nc -> emits (s >> k) nc.
Proof.
  intros Hk Hs pb u pb' H. unfold seq in H.
  destruct (s pb) as [[e | u1] pb1] eqn:E; [discriminate |].
  eapply Hk; [exact H |]. eapply Hs; eauto.
Qed.

Lemma seq_emits_r (s k : Stmt unit) (nc : string * LpConstraint) :
  emits k nc -> emits (s >> k) nc.
Proof.
  intros Hk pb u pb' H. unfold seq in H.
  destruct (s pb) as [[e | u1] pb1] eqn:E; [discriminate |].
  eapply Hk; eauto.
Qed.

Lemma for_each_emits {A} (l : list A) (body : A -> Stmt unit) (x : A)
    (nc : string * LpConstraint) :
  (forall y, keeps (body y)) -> In x l -> emits (body x) nc ->
  emits (for_each l body) nc.
Proof.
  intros Hk Hin Hx. induction l as [| y l IH]; simpl in *.
  - contradiction.
  - destruct Hin as [-> | Hin].
    + apply seq_emits_l; [apply for_each_keeps; exact Hk | exact Hx].
    + apply seq_emits_r. auto.
Qed.

Create HintDb cells.

#[local] Hint Resolve ret_keeps set_objective_keeps add_constraint_keeps
  seq_keeps for_each_keeps : cells.

Lemma max_concurrent_cell_keeps bound ps : keeps (max_concurrent_cell bound ps).
Proof. unfold max_concurrent_cell; auto with cells. Qed.

Lemma only_if_selected_cell_keeps ps ts : keeps (only_if_selected_cell ps ts).
Proof.
  unfold only_if_selected_cell.
  apply for_each_keeps; intros tm. apply for_each_keeps; intros p.
  auto with cells.
Qed.

Lemma skill_level_cell_keeps ps ts : keeps (skill_level_cell ps ts).
Proof.
  unfold skill_level_cell.
  apply for_each_keeps; intros p. apply for_each_keeps; intros tm.
  destruct (unqualified p tm); auto with cells.
Qed.

Lemma hours_available_cell_keeps ps ts : keeps (hours_available_cell ps ts).
Proof.
  unfold hours_available_cell.
  apply for_each_keeps; intros tm. auto with cells.
Qed.

Lemma team_assignment_cell_keeps ps ts : keeps (team_assignment_cell ps ts).
Proof.
  unfold team_assignment_cell.
  apply for_each_keeps; intros p. auto with cells.
Qed.

#[local] Hint Resolve max_concurrent_cell_keeps only_if_selected_cell_keeps
  skill_level_cell_keeps hours_available_cell_keeps team_assignment_cell_keeps
  : cells.

Lemma cap_statement_keeps (cap : option N) ps :
  keeps match cap with
        | Some bound => max_concurrent_cell (Z.of_N bound) ps
        | None => ret tt
        end.
Proof. destruct cap; auto with cells. Qed.

#[local] Hint Resolve cap_statement_keeps : cells.

Lemma build_model_keeps cap ps ts : keeps (build_model cap ps ts).
Proof. unfold build_model. auto 10 with cells. Qed.

(** What a completed build has put in the problem. *)
Lemma build_emits_cap bound ps ts :
  emits (build_model (Some bound) ps ts) (cap_constraint (Z.of_N bound) ps).
Proof.
  unfold build_model. apply seq_emits_r. apply seq_emits_l.
  - auto 10 with cells.
  - exact (add_constraint_emits _ "Max_Concurrent_Projects").
Qed.

Lemma build_emits_only_if_selected cap ps ts tm p :
  In tm ts -> In p ps ->
  emits (build_model cap ps ts)
    (lp_name ("Assign_" ++ member_name tm ++ "_" ++ project_name p
                ++ "_OnlyIfProjectSelected"),
     LpLE (of_var (Assign (member_name tm) (project_name p)))
          (of_var (SelectProject (project_name p)))).
Proof.
  intros Htm Hp. unfold build_model.
  do 2 apply seq_emits_r. apply seq_emits_l; [auto 10 with cells |].
  unfold only_if_selected_cell.
  apply for_each_emits with (x := tm); [| exact Htm |].
  - intros y. apply for_each_keeps. auto with cells.
  - apply for_each_emits with (x := p); [auto with cells | exact Hp |].
    apply add_constraint_emits.
Qed.

Lemma build_emits_pin cap ps ts tm p :
  In tm ts -> In p ps -> unqualified p tm = true ->
  emits (build_model cap ps ts)
    (lp_name ("Skill_Python_Level_Match_" ++ member_name tm ++ "_" ++ project_name p),
     LpEQ (of_var (Assign (member_name tm) (project_name p))) (of_int 0)).
Proof.
  intros Htm Hp Hu. unfold build_model.
  do 3 apply seq_emits_r. apply seq_emits_l; [auto 10 with cells |].
  unfold skill_level_cell.
  apply for_each_emits with (x := p); [| exact Hp |].
  - intros y. apply for_each_keeps. intros z.
    destruct (unqualified y z); auto with cells.
  - apply for_each_emits with (x := tm); [| exact Htm |].
    + intros z. destruct (unqualified p z); auto with cells.
    + rewrite Hu. apply add_constraint_emits.
Qed.

Lemma build_emits_hours cap ps ts tm :
  In tm ts ->
  emits (build_model cap ps ts)
    (lp_name ("Hours_Available_" ++ member_name tm),
     LpLE (total_hours_assigned ps tm) (of_int (hours_available tm))).
Proof.
  intros Htm. unfold build_model.
  do 4 apply seq_emits_r. apply seq_emits_l; [auto 10 with cells |].
  unfold hours_available_cell.
  apply for_each_emits with (x := tm); [auto with cells | exact Htm |].
  apply add_constraint_emits.
Qed.

Lemma build_emits_staffing cap ps ts p :
  In p ps ->
  emits (build_model cap ps ts)
    (lp_name ("Team_Assignment_" ++ project_name p),
     LpGE (total_team_assigned ts p) (of_var (SelectProject (project_name p)))).
Proof.
  intros Hp. unfold build_model.
  do 5 apply seq_emits_r.
  unfold team_assignment_cell.
  apply for_each_emits with (x := p); [auto with cells | exact Hp |].
  apply add_constraint_emits.
Qed.

(** ** Values and expressions *)

Lemma eval_constant (v : assignment) (t : list (LpVariable * Z)) (c1 c2 : Z) :
  eval v (mkExpr t (c1 + c2)) == inject_Z c1 + eval v (mkExpr t c2).
Proof.
  unfold eval; cbn [terms constant]. induction t as [| x t IH]; cbn [fold_right].
  - rewrite inject_Z_plus. reflexivity.
  - rewrite IH. ring.
Qed.

Lemma eval_app (v : assignment) (t1 t2 : list (LpVariable * Z)) (c1 c2 : Z) :
  eval v (mkExpr (t1 ++ t2) (c1 + c2)) == eval v (mkExpr t1 c1) + eval v (mkExpr t2 c2).
Proof.
  induction t1 as [| t t1 IH].
  - cbn [app]. rewrite eval_constant. reflexivity.
  - unfold eval in *; cbn [terms constant app fold_right] in *. rewrite IH. ring.
Qed.

Lemma eval_lpSum (v : assignment) (l : list LpAffineExpression) :
  eval v (lpSum l) == Qsum (map (eval v) l).
Proof.
  induction l as [| e l IH]; simpl.
  - reflexivity.
  - rewrite eval_app, IH. destruct e; reflexivity.
Qed.

Lemma eval_times (v : assignment) (x : LpVariable) (k : Z) :
  eval v (times x k) == value v x * inject_Z k.
Proof.
  unfold eval; simpl. change (inject_Z 0) with 0. ring.
Qed.

Lemma eval_of_var (v : assignment) (x : LpVariable) : eval v (of_var x) == value v x.
Proof.
  unfold of_var. rewrite eval_times. change (inject_Z 1) with 1. ring.
Qed.

Lemma eval_of_int (v : assignment) (k : Z) : eval v (of_int k) = inject_Z k.
Proof. reflexivity. Qed.

Lemma Qsum_ext {A} (f g : A -> Q) (l : list A) :
  (forall x, In x l -> f x == g x) -> Qsum (map f l) == Qsum (map g l).
Proof.
  induction l as [| x l IH]; simpl; intros H.
  - reflexivity.
  - rewrite (H x) by auto. rewrite IH by auto. reflexivity.
Qed.

Lemma Qsum_nonneg {A} (f : A -> Q) (l : list A) :
  (forall x, In x l -> 0 <= f x) -> 0 <= Qsum (map f l).
Proof.
  induction l as [| x l IH]; simpl; intros H.
  - apply Qle_refl.
  - assert (0 <= f x) by auto. assert (0 <= Qsum (map f l)) by auto. lra.
Qed.

Lemma Qsum_bounds_term {A} (f : A -> Q) (l : list A) (x : A) :
  (forall y, In y l -> 0 <= f y) -> In x l -> f x <= Qsum (map f l).
Proof.
  induction l as [| y l IH]; simpl; intros H Hin.
  - contradiction.
  - assert (0 <= f y) by auto.
    assert (0 <= Qsum (map f l)) by (apply Qsum_nonneg; auto).
    destruct Hin as [-> | Hin].
    + lra.
    + assert (f x <= Qsum (map f l)) by auto. lra.
Qed.

Lemma binary_value (v : assignment) (x : LpVariable) :
  binary v x -> value v x == 0 \/ value v x == 1.
Proof.
  intros [q [Hq Hb]]. unfold value. rewrite Hq. exact Hb.
Qed.

Lemma binary_equals_one (v : assignment) (x : LpVariable) :
  binary v x -> value v x == (if equals_one (v x) then 1 else 0).
Proof.
  intros [q [Hq Hb]]. unfold value, equals_one. rewrite Hq.
  destruct (Qeq_bool q 1) eqn:E.
  - apply Qeq_bool_iff. exact E.
  - destruct Hb as [H | H]; [exact H |].
    apply Qeq_bool_iff in H. congruence.
Qed.

Lemma equals_one_iff (o : option Q) :
  equals_one o = true <-> exists q, o = Some q /\ q == 1.
Proof.
  unfold equals_one. split.
  - destruct o as [q |]; [| discriminate].
    intros H. exists q. split; [reflexivity | apply Qeq_bool_iff; exact H].
  - intros [q [-> H]]. apply Qeq_bool_iff. exact H.
Qed.

Lemma select_declared ps ts p :
  In p ps -> In (SelectProject (project_name p)) (declared_variables ps ts).
Proof.
  intros Hp. unfold declared_variables. apply in_or_app. left.
  apply in_map_iff. exists p. auto.
Qed.

Lemma assign_declared ps ts tm p :
  In tm ts -> In p ps ->
  In (Assign (member_name tm) (project_name p)) (declared_variables ps ts).
Proof.
  intros Htm Hp. unfold declared_variables. apply in_or_app. right.
  apply in_flat_map. exists tm. split; [exact Htm |].
  apply in_map_iff. exists p. auto.
Qed.

Lemma feasibleb_sound vars pb v : feasibleb vars pb v = true -> feasible vars pb v.
Proof.
  unfold feasibleb, feasible. intros H. apply andb_prop in H.
  destruct H as [Hb Hc]. rewrite forallb_forall in Hb, Hc. split.
  - intros x Hx. apply Hb in Hx. unfold binaryb in Hx. unfold binary.
    destruct (v x) as [q |]; [| discriminate]. exists q. split; [reflexivity |].
    apply orb_prop in Hx. destruct Hx as [Hx | Hx]; apply Qeq_bool_iff in Hx; auto.
  - intros n c Hin. apply Hc in Hin. simpl in Hin.
    destruct c; simpl in *.
    + apply Qle_bool_iff; exact Hin.
    + apply Qeq_bool_iff; exact Hin.
    + apply Qle_bool_iff; exact Hin.
Qed.

(** ** The model and its solutions *)

Lemma unqualified_false_iff (p : Project) (tm : TeamMember) :
  unqualified p tm = false <->
  (forall s, In s (skills_required p) -> In s (skills tm))
  /\ (python_level tm >= python_level_required p)%Z.
Proof.
  unfold unqualified. rewrite orb_false_iff, negb_false_iff, issubset_incl.
  rewrite Z.ltb_ge. split; intros [H1 H2]; split; auto; lia.
Qed.

Lemma in_team_assignments v ps ts (m n : string) :
  In (m, n) (team_assignments v ps ts) <->
  exists tm p, In tm ts /\ In p ps /\ member_name tm = m /\ project_name p = n
               /\ equals_one (v (Assign m n)) = true.
Proof.
  unfold team_assignments. rewrite in_flat_map. split.
  - intros [tm [Htm Hin]]. apply in_map_iff in Hin.
    destruct Hin as [p [Heq Hp]]. apply filter_In in Hp.
    destruct Hp as [Hp Hone]. inversion Heq; subst.
    exists tm, p. auto.
  - intros [tm [p [Htm [Hp [Hm [Hn Hone]]]]]]. subst.
    exists tm. split; [exact Htm |]. apply in_map_iff. exists p.
    split; [reflexivity |]. apply filter_In. auto.
Qed.

Lemma in_selected_projects v ps (n : string) :
  In n (selected_projects v ps) <->
  exists p, In p ps /\ project_name p = n /\ equals_one (v (SelectProject n)) = true.
Proof.
  unfold selected_projects. rewrite in_map_iff. split.
  - intros [p [Heq Hp]]. apply filter_In in Hp. destruct Hp as [Hp Hone].
    subst. exists p. auto.
  - intros [p [Hp [Hn Hone]]]. subst. exists p.
    split; [reflexivity |]. apply filter_In. auto.
Qed.

(** A feasible assignment has an unqualified pair at zero. *)
Lemma pinned_to_zero cap ps ts pb v tm p :
  build_model cap ps ts empty_problem = (inr tt, pb) ->
  feasible (declared_variables ps ts) pb v ->
  In tm ts -> In p ps -> unqualified p tm = true ->
  value v (Assign (member_name tm) (project_name p)) == 0.
Proof.
  intros Hb [_ Hc] Htm Hp Hu.
  pose proof (build_emits_pin cap ps ts tm p Htm Hp Hu _ _ _ Hb) as Hin.
  apply Hc in Hin. cbn [holds] in Hin.
  rewrite eval_of_var, eval_of_int in Hin. exact Hin.
Qed.

(** C7: in a solved instance every pair that the extraction emits is
    qualified: the member has each skill the project requires, at a level
    not below the required one.  The variable of every pair exists, and the
    built problem pins the variable of every unqualified pair to zero with an
    equality constraint. *)
Theorem assignments_are_qualified cap ps ts pb v tm p :
  build_model cap ps ts empty_problem = (inr tt, pb) ->
  feasible (declared_variables ps ts) pb v ->
  In tm ts -> In p ps ->
  (In (member_name tm, project_name p) (team_assignments v ps ts) ->
     (forall s, In s (skills_required p) -> In s (skills tm))
     /\ (python_level tm >= python_level_required p)%Z)
  /\ In (team_project_variables (member_name tm, project_name p))
        (declared_variables ps ts)
  /\ (~ ((forall s, In s (skills_required p) -> In s (skills tm))
         /\ (python_level tm >= python_level_required p)%Z) ->
      exists n,
        In (n, LpEQ (of_var (team_project_variables (member_name tm, project_name p)))
                    (of_int 0))
           (constraints pb)).
Proof.
  intros Hb Hf Htm Hp. split; [| split].
  - intros Hin. apply unqualified_false_iff.
    destruct (unqualified p tm) eqn:Hu; [exfalso | reflexivity].
    pose proof (pinned_to_zero _ _ _ _ _ _ _ Hb Hf Htm Hp Hu) as Hz.
    apply in_team_assignments in Hin.
    destruct Hin as [tm' [p' [_ [_ [_ [_ Hone]]]]]].
    apply equals_one_iff in Hone. destruct Hone as [q [Hq H1]].
    unfold value in Hz. rewrite Hq in Hz. lra.
  - apply assign_declared; assumption.
  - intros Hn. destruct (unqualified p tm) eqn:Hu.
    + eexists. exact (build_emits_pin cap ps ts tm p Htm Hp Hu _ _ _ Hb).
    + exfalso. apply Hn. apply unqualified_false_iff. exact Hu.
Qed.

Lemma hours_sum (v : assignment) (ps : list Project) (tm : TeamMember) :
  eval v (total_hours_assigned ps tm) ==
  Qsum (map (fun p => value v (Assign (member_name tm) (project_name p))
                      * inject_Z (hours_to_implement p)) ps).
Proof.
  unfold total_hours_assigned. rewrite eval_lpSum, map_map.
  apply Qsum_ext. intros p _. apply eval_times.
Qed.

Lemma charged_hours (v : assignment) (m : string) (ps : list Project) :
  (forall p, In p ps -> binary v (Assign m (project_name p))) ->
  Qsum (map (fun p => value v (Assign m (project_name p))
                      * inject_Z (hours_to_implement p)) ps)
  == inject_Z (Zsum (map hours_to_implement
        (filter (fun p => equals_one (v (Assign m (project_name p)))) ps))).
Proof.
  induction ps as [| p ps IH]; intros Hb.
  - reflexivity.
  - cbn [map Qsum fold_right filter].
    change (fold_right Qplus 0) with Qsum.
    rewrite IH by (intros; apply Hb; right; assumption).
    rewrite (binary_equals_one v _ (Hb p (or_introl eq_refl))).
    destruct (equals_one _); cbn [map Zsum fold_right].
    + change (fold_right Z.add 0%Z) with Zsum.
      rewrite inject_Z_plus. ring.
    + ring.
Qed.

(** The notebook's own build completes, and the values its run printed
    satisfy the problem it built. *)
Lemma notebook_build_completes :
  build_model None projects team empty_problem = (inr tt, snd notebook_build).
Proof. vm_compute. reflexivity. Qed.

(** The problem has the 53 rows and the 35 columns the solver log reports. *)
Lemma notebook_problem_size :
  List.length (constraints (snd notebook_build)) = 53%nat
  /\ List.length (declared_variables projects team) = 35%nat.
Proof. split; vm_compute; reflexivity. Qed.

(** The reference data are what the two constructors return. *)
Lemma reference_data_constructed :
  Forall (fun p =>
            new_Project (PyStr (project_name p)) (PyInt (hours_saved_per_month p))
              (PyInt (hours_to_implement p)) (py_strs (skills_required p))
              (PyInt (python_level_required p)) = inr p) projects
  /\ Forall (fun tm =>
            new_TeamMember (PyStr (member_name tm)) (PyInt (hours_available tm))
              (py_strs (skills tm)) (PyInt (python_level tm)) = inr tm) team.
Proof. split; repeat constructor. Qed.

Lemma printed_values_feasible :
  feasible (declared_variables projects team) (snd notebook_build) printed_values.
Proof. apply feasibleb_sound. vm_compute. reflexivity. Qed.

Lemma assignments_are_qualified_witness :
  let tm := mkTeamMember "Rowlf the Dog" 140 ["APIs"; "SQL"; "Excel"] 3 in
  let p := mkProject "Pulse Report report generation" 10 80 ["SQL"; "APIs"] 3 in
  (In (member_name tm, project_name p) (team_assignments printed_values projects team) ->
     (forall s, In s (skills_required p) -> In s (skills tm))
     /\ (python_level tm >= python_level_required p)%Z)
  /\ In (team_project_variables (member_name tm, project_name p))
        (declared_variables projects team)
  /\ (~ ((forall s, In s (skills_required p) -> In s (skills tm))
         /\ (python_level tm >= python_level_required p)%Z) ->
      exists n,
        In (n, LpEQ (of_var (team_project_variables (member_name tm, project_name p)))
                    (of_int 0))
           (constraints (snd notebook_build))).
Proof.
  intros tm p.
  apply (assignments_are_qualified None projects team (snd notebook_build)
           printed_values tm p).
  - vm_compute. reflexivity.
  - apply feasibleb_sound. vm_compute. reflexivity.
  - simpl. tauto.
  - simpl. tauto.
Defined.

Lemma assigned_hours_bounded cap ps ts pb v tm :
  build_model cap ps ts empty_problem = (inr tt, pb) ->
  feasible (declared_variables ps ts) pb v ->
  In tm ts ->
  Qsum (map (fun p => value v (Assign (member_name tm) (project_name p))
                      * inject_Z (hours_to_implement p)) ps)
    <= inject_Z (hours_available tm).
Proof.
  intros Hb [_ Hc] Htm.
  pose proof (build_emits_hours cap ps ts tm Htm _ _ _ Hb) as Hin.
  apply Hc in Hin. cbn [holds] in Hin.
  rewrite hours_sum, eval_of_int in Hin. exact Hin.
Qed.

Lemma staffed_if_selected cap ps ts pb v p :
  build_model cap ps ts empty_problem = (inr tt, pb) ->
  feasible (declared_variables ps ts) pb v ->
  In p ps ->
  value v (SelectProject (project_name p))
  <= Qsum (map (fun tm => value v (Assign (member_name tm) (project_name p))) ts).
Proof.
  intros Hb [_ Hc] Hp.
  pose proof (build_emits_staffing cap ps ts p Hp _ _ _ Hb) as Hin.
  apply Hc in Hin. cbn [holds] in Hin.
  unfold total_team_assigned in Hin.
  rewrite eval_lpSum, map_map, eval_of_var in Hin.
  rewrite (Qsum_ext _ (fun tm => value v (Assign (member_name tm) (project_name p)))) in Hin
    by (intros; apply eval_of_var).
  exact Hin.
Qed.

(** A member whose hours fall short of a project's cannot be assigned to it. *)
Lemma too_long_to_assign cap ps ts pb v tm p :
  build_model cap ps ts empty_problem = (inr tt, pb) ->
  feasible (declared_variables ps ts) pb v ->
  In tm ts -> In p ps ->
  (forall p', In p' ps -> (0 <= hours_to_implement p')%Z) ->
  (hours_available tm < hours_to_implement p)%Z ->
  value v (Assign (member_name tm) (project_name p)) == 0.
Proof.
  intros Hb Hf Htm Hp Hpos Hlt.
  pose proof (assigned_hours_bounded _ _ _ _ _ _ Hb Hf Htm) as Hcap.
  assert (Hterm : value v (Assign (member_name tm) (project_name p))
                  * inject_Z (hours_to_implement p) <= inject_Z (hours_available tm)).
  { eapply Qle_trans; [| exact Hcap].
    apply (Qsum_bounds_term
             (fun p => value v (Assign (member_name tm) (project_name p))
                       * inject_Z (hours_to_implement p))); [| exact Hp].
    intros y Hy.
    assert (0 <= inject_Z (hours_to_implement y)).
    { change 0 with (inject_Z 0). rewrite <- Zle_Qle. auto. }
    destruct (binary_value v _ (proj1 Hf _ (assign_declared ps ts tm y Htm Hy)))
      as [E | E]; rewrite E; lra. }
  assert (Hlt' : inject_Z (hours_available tm) < inject_Z (hours_to_implement p)).
  { rewrite <- Zlt_Qlt. exact Hlt. }
  destruct (binary_value v _ (proj1 Hf _ (assign_declared ps ts tm p Htm Hp)))
    as [E | E]; [exact E | rewrite E in Hterm; lra].
Qed.

Lemma Qsum_zero {A} (l : list A) : Qsum (map (fun _ => 0) l) == 0.
Proof.
  induction l as [| x l IH]; simpl; [reflexivity | rewrite IH; ring].
Qed.

(** A project nobody can be assigned to is not selected. *)
Lemma unstaffed_is_unselected cap ps ts pb v p :
  build_model cap ps ts empty_problem = (inr tt, pb) ->
  feasible (declared_variables ps ts) pb v ->
  In p ps ->
  (forall tm, In tm ts -> value v (Assign (member_name tm) (project_name p)) == 0) ->
  value v (SelectProject (project_name p)) == 0.
Proof.
  intros Hb Hf Hp Hz.
  pose proof (staffed_if_selected _ _ _ _ _ _ Hb Hf Hp) as Hst.
  rewrite (Qsum_ext _ (fun _ => 0)) in Hst by exact Hz.
  rewrite Qsum_zero in Hst.
  destruct (binary_value v _ (proj1 Hf _ (select_declared ps ts p Hp))) as [E | E];
    [exact E | rewrite E in Hst; lra].
Qed.

(** C8: in a solved instance, for every member the hours of the projects
    assigned to that member add up to no more than the member's available
    hours; each assigned project counts with its full hours to implement,
    however many other members are assigned to it. *)
Theorem hours_within_capacity cap ps ts pb v tm :
  build_model cap ps ts empty_problem = (inr tt, pb) ->
  feasible (declared_variables ps ts) pb v ->
  In tm ts ->
  Qsum (map (fun p => value v (team_project_variables (member_name tm, project_name p))
                      * inject_Z (hours_to_implement p)) ps)
    <= inject_Z (hours_available tm)
  /\ (Zsum (map hours_to_implement
        (filter (fun p =>
           equals_one (v (team_project_variables (member_name tm, project_name p))))
           ps))
      <= hours_available tm)%Z.
Proof.
  intros Hb Hf Htm.
  pose proof (assigned_hours_bounded _ _ _ _ _ _ Hb Hf Htm) as Hq.
  split; [exact Hq |].
  rewrite charged_hours in Hq.
  - rewrite Zle_Qle. exact Hq.
  - intros p Hp. apply (proj1 Hf). apply assign_declared; assumption.
Qed.

Lemma hours_within_capacity_witness :
  let tm := mkTeamMember "Pepe the King Prawn" 120 ["SQL"; "Excel"] 1 in
  Qsum (map (fun p =>
          value printed_values (team_project_variables (member_name tm, project_name p))
          * inject_Z (hours_to_implement p)) projects)
    <= inject_Z (hours_available tm)
  /\ (Zsum (map hours_to_implement
        (filter (fun p =>
           equals_one (printed_values
                         (team_project_variables (member_name tm, project_name p))))
           projects))
      <= hours_available tm)%Z.
Proof.
  intros tm.
  apply (hours_within_capacity None projects team (snd notebook_build)
           printed_values tm).
  - vm_compute. reflexivity.
  - apply feasibleb_sound. vm_compute. reflexivity.
  - simpl. tauto.
Defined.

Lemma filter_none {A} (f : A -> bool) (l : list A) :
  (forall x, In x l -> f x = false) -> filter f l = [].
Proof.
  induction l as [| x l IH]; simpl; intros H.
  - reflexivity.
  - rewrite (H x) by auto. apply IH. auto.
Qed.

(** C2: with the cap switched on, the build emits the constraint
    [sum of select <= bound]; and when the bound is 0 every result that
    satisfies the model, the optimal one among them, selects no project and
    has total benefit 0. *)
Theorem zero_cap_selects_nothing bound ps ts pb :
  build_model (Some bound) ps ts empty_problem = (inr tt, pb) ->
  In ("Max_Concurrent_Projects"%string,
      LpLE (lpSum (map (fun p => of_var (project_variables (project_name p))) ps))
           (of_int (Z.of_N bound)))
     (constraints pb)
  /\ (bound = 0%N ->
      forall v, feasible (declared_variables ps ts) pb v ->
        selected_projects v ps = [] /\ total_hours_saved v ps = 0%Z).
Proof.
  intros Hb.
  pose proof (build_emits_cap bound ps ts _ _ _ Hb) as Hin.
  split; [exact Hin |].
  intros -> v [Hbin Hc].
  apply Hc in Hin. cbn [holds] in Hin.
  rewrite eval_lpSum, map_map, eval_of_int in Hin.
  rewrite (Qsum_ext _ (fun p => value v (SelectProject (project_name p)))) in Hin
    by (intros; apply eval_of_var).
  assert (Hnone : filter (fun p => equals_one (v (project_variables (project_name p)))) ps
                  = []).
  { apply filter_none. intros p Hp.
    assert (Hp' : binary v (SelectProject (project_name p)))
      by (apply Hbin, select_declared; exact Hp).
    assert (Hle : value v (SelectProject (project_name p)) <= 0).
    { eapply Qle_trans; [| exact Hin].
      apply (Qsum_bounds_term (fun p => value v (SelectProject (project_name p))));
        [| exact Hp].
      intros y Hy.
      destruct (binary_value v _ (Hbin _ (select_declared ps ts y Hy))) as [E | E];
        rewrite E; lra. }
    pose proof (binary_equals_one v _ Hp') as E.
    unfold project_variables.
    destruct (equals_one (v (SelectProject (project_name p))));
      [exfalso; lra | reflexivity]. }
  unfold selected_projects, total_hours_saved. rewrite Hnone. split; reflexivity.
Qed.

Lemma zero_cap_selects_nothing_witness :
  let pb := snd (build_model (Some 0%N) projects team empty_problem) in
  feasible (declared_variables projects team) pb all_zero
  /\ In ("Max_Concurrent_Projects"%string,
         LpLE (lpSum (map (fun p => of_var (project_variables (project_name p))) projects))
              (of_int 0))
        (constraints pb)
  /\ (0%N = 0%N ->
      forall v, feasible (declared_variables projects team) pb v ->
        selected_projects v projects = [] /\ total_hours_saved v projects = 0%Z).
Proof.
  intros pb. split.
  - apply feasibleb_sound. vm_compute. reflexivity.
  - apply (zero_cap_selects_nothing 0%N projects team pb).
    vm_compute. reflexivity.
Defined.

(** ** Reading the results *)

(** C5, the claim as stated, refuted: the double 0.999999 is above 0.5, and
    with every variable at that value no project counts as selected and no
    pair as assigned. *)
Lemma almost_one_is_not_counted :
  1 # 2 < almost_one
  /\ selected_projects (fun _ => Some almost_one) projects = []
  /\ team_assignments (fun _ => Some almost_one) projects team = []
  /\ total_hours_saved (fun _ => Some almost_one) projects = 0%Z.
Proof.
  repeat split; vm_compute; reflexivity.
Qed.

(** C5, amended: a project counts as selected, and a pair as assigned,
    exactly when the value of its variable is equal to 1; nothing is rounded
    and no threshold is applied. *)
Theorem counted_iff_equal_to_one (v : assignment) ps ts (m n : string) :
  (In n (selected_projects v ps) <->
     (exists p, In p ps /\ project_name p = n)
     /\ exists q, v (project_variables n) = Some q /\ q == 1)
  /\ (In (m, n) (team_assignments v ps ts) <->
     (exists tm p, In tm ts /\ In p ps /\ member_name tm = m /\ project_name p = n)
     /\ exists q, v (team_project_variables (m, n)) = Some q /\ q == 1).
Proof.
  split.
  - rewrite in_selected_projects. split.
    + intros [p [Hp [Hn H1]]]. apply equals_one_iff in H1. eauto.
    + intros [[p [Hp Hn]] H1]. apply equals_one_iff in H1. eauto.
  - rewrite in_team_assignments. split.
    + intros [tm [p [Htm [Hp [Hm [Hn H1]]]]]]. apply equals_one_iff in H1.
      split; [exists tm, p; auto | exact H1].
    + intros [[tm [p [Htm [Hp [Hm Hn]]]]] H1]. apply equals_one_iff in H1.
      exists tm, p. auto.
Qed.

(** No values satisfy a problem built for a team with an overdrawn member. *)
Lemma overdrawn_infeasible :
  forall v, ~ feasible (declared_variables one_project overdrawn_team)
                (snd (build_model None one_project overdrawn_team empty_problem)) v.
Proof.
  intros v [Hbin Hc].
  assert (Hin : In ("Hours_Available_Sweetums"%string,
                    LpLE (mkExpr [(Assign "Sweetums" "ISS", 80%Z)] 0)
                         (of_int (-140)))
                   (constraints
                      (snd (build_model None one_project overdrawn_team empty_problem)))).
  { vm_compute. tauto. }
  apply Hc in Hin. cbn [holds] in Hin.
  assert (Hb : binary v (Assign "Sweetums" "ISS")).
  { apply Hbin. vm_compute. tauto. }
  apply binary_value in Hb.
  unfold eval in Hin. cbn [terms constant fold_right fst snd of_int] in Hin.
  change (inject_Z 80) with 80 in Hin. change (inject_Z 0) with 0 in Hin.
  change (inject_Z (-140)) with (-140 # 1) in Hin.
  destruct Hb as [E | E]; rewrite E in Hin; lra.
Qed.

(** C6, the claim as stated, refuted: one project, and a team of an
    overdrawn member and one who can take the project.  The build completes
    and no values satisfy the problem, so the solve cannot end Optimal; with
    the values that meet every constraint but the overdrawn member's hours,
    the summary under status Infeasible carries the project, the pair and the
    total read from them; and so it carries the project and the total with
    any values that have the project's variable at 1. *)
Lemma summary_of_an_infeasible_solve :
  fst (build_model None one_project overdrawn_team empty_problem) = inr tt
  /\ (forall s v,
        solve (declared_variables one_project overdrawn_team)
              (snd (build_model None one_project overdrawn_team empty_problem)) s v ->
        s = StatusInfeasible)
  /\ feasibleb (declared_variables one_project overdrawn_team)
       (mkProblem None
          (filter (fun nc => negb (String.eqb (fst nc) "Hours_Available_Sweetums"))
             (constraints
                (snd (build_model None one_project overdrawn_team empty_problem)))))
       left_behind = true
  /\ summarise StatusInfeasible left_behind one_project overdrawn_team
     = mkSummary "Infeasible" ["ISS"] [("Pepe the King Prawn", "ISS")] 5
  /\ (forall v : assignment,
        v (SelectProject "ISS") = Some 1 ->
        summary_status (summarise StatusInfeasible v one_project overdrawn_team)
        = "Infeasible"
        /\ summary_selected (summarise StatusInfeasible v one_project overdrawn_team)
           = ["ISS"]
        /\ summary_total (summarise StatusInfeasible v one_project overdrawn_team)
           = 5%Z).
Proof.
  split; [vm_compute; reflexivity |]. split; [| split; [| split]].
  - intros s v Hs. destruct Hs as [v [Hf _] | v _]; [| reflexivity].
    exfalso. exact (overdrawn_infeasible v Hf).
  - vm_compute. reflexivity.
  - vm_compute. reflexivity.
  - intros v Hv. cbn [summarise summary_status summary_selected summary_total].
    unfold selected_projects, total_hours_saved, one_project.
    cbn [filter project_name project_variables]. unfold project_variables.
    rewrite Hv. repeat split; reflexivity.
Qed.

(** Nothing is listed exactly when no variable holds 1. *)
Lemma filter_nil_iff {A} (f : A -> bool) (l : list A) :
  filter f l = [] <-> forall x, In x l -> f x = false.
Proof.
  split.
  - intros H x Hx. destruct (f x) eqn:E; [| reflexivity].
    assert (Hin : In x (filter f l)) by (apply filter_In; auto).
    rewrite H in Hin. contradiction.
  - apply filter_none.
Qed.

Lemma equals_one_false_iff (o : option Q) :
  equals_one o = false <-> ~ exists q, o = Some q /\ q == 1.
Proof.
  rewrite <- equals_one_iff. destruct (equals_one o); split; intros H;
    try reflexivity; try discriminate.
  exfalso. apply H. reflexivity.
Qed.

(** C6, amended: the extraction does not look at the status.  Whatever the
    status, the summary names it as [LpStatus] does and lists beside it the
    projects and the pairs whose variables hold 1, with their total: the
    list of projects is empty exactly when no project's variable holds 1,
    the list of pairs exactly when no pair's variable does, and all is empty
    and 0 when no variable holds a value. *)
Theorem summary_reads_values_whatever_the_status
    (s s' : status) (v : assignment) ps ts :
  summary_status (summarise s v ps ts) = LpStatus s
  /\ summary_selected (summarise s v ps ts) = summary_selected (summarise s' v ps ts)
  /\ summary_assignments (summarise s v ps ts)
     = summary_assignments (summarise s' v ps ts)
  /\ summary_total (summarise s v ps ts) = summary_total (summarise s' v ps ts)
  /\ (summary_selected (summarise s v ps ts) = [] <->
      forall p, In p ps ->
        ~ exists q, v (project_variables (project_name p)) = Some q /\ q == 1)
  /\ (summary_assignments (summarise s v ps ts) = [] <->
      forall tm p, In tm ts -> In p ps ->
        ~ exists q,
            v (team_project_variables (member_name tm, project_name p)) = Some q
            /\ q == 1)
  /\ ((forall x, v x = None) ->
      summarise s v ps ts = mkSummary (LpStatus s) [] [] 0).
Proof.
  split; [reflexivity |]. split; [reflexivity |].
  split; [reflexivity |]. split; [reflexivity |].
  split; [| split].
  - cbn [summarise summary_selected]. unfold selected_projects. split.
    + intros H p Hp. apply map_eq_nil in H.
      apply equals_one_false_iff.
      exact (proj1 (filter_nil_iff _ _) H p Hp).
    + intros H. rewrite (proj2 (filter_nil_iff _ ps)); [reflexivity |].
      intros p Hp. apply equals_one_false_iff. exact (H p Hp).
  - cbn [summarise summary_assignments]. split.
    + intros H tm p Htm Hp Hex. apply equals_one_iff in Hex.
      assert (Hin : In (member_name tm, project_name p) (team_assignments v ps ts)).
      { apply in_team_assignments. exists tm, p. auto. }
      rewrite H in Hin. contradiction.
    + intros H. destruct (team_assignments v ps ts) as [| [m n] l] eqn:E;
        [reflexivity | exfalso].
      assert (Hin : In (m, n) (team_assignments v ps ts))
        by (rewrite E; left; reflexivity).
      apply in_team_assignments in Hin.
      destruct Hin as [tm [p [Htm [Hp [Hm [Hn Hone]]]]]]. subst m n.
      apply (H tm p Htm Hp). apply equals_one_iff. exact Hone.
  - intros Hnone.
    unfold summarise, selected_projects, team_assignments, total_hours_saved.
    assert (Hp : forall (key : Project -> LpVariable),
               filter (fun p => equals_one (v (key p))) ps = []).
    { intros key. apply filter_none. intros p _. rewrite Hnone. reflexivity. }
    rewrite (Hp (fun p => project_variables (project_name p))). simpl.
    f_equal. induction ts as [| tm ts IH]; simpl; [reflexivity |].
    rewrite (Hp (fun p => team_project_variables (member_name tm, project_name p))).
    simpl. exact IH.
Qed.

(** ** The reference scenario *)

Lemma notebook_objective v :
  objective_value (snd notebook_build) v ==
  20 * value v (SelectProject "Secondary Deliverables reporting")
  + 40 * value v (SelectProject "I&M Work Order generation")
  + 5 * value v (SelectProject "ISS")
  + 5 * value v (SelectProject "Network Interventions lists")
  + 10 * value v (SelectProject "Pulse Report report generation").
Proof.
  unfold objective_value.
  replace (objective (snd notebook_build)) with (Some (objective_expression projects))
    by (vm_compute; reflexivity).
  unfold objective_expression. rewrite eval_lpSum, map_map.
  cbn [projects map Qsum fold_right]. rewrite !eval_times.
  cbn [project_name hours_saved_per_month project_variables].
  unfold project_variables, inject_Z. ring.
Qed.

(** Only two members have the skills of "I&M Work Order generation", and
    neither has the 200 hours it takes: it is never selected. *)
Lemma work_order_generation_unselected v :
  feasible (declared_variables projects team) (snd notebook_build) v ->
  value v (SelectProject "I&M Work Order generation") == 0.
Proof.
  intros Hf.
  pose proof notebook_build_completes as Hb.
  set (P2 := mkProject "I&M Work Order generation" 40 200 ["SQL"; "Excel"; "APIs"] 1).
  assert (HP2 : In P2 projects) by (simpl; tauto).
  assert (Hpos : forall p', In p' projects -> (0 <= hours_to_implement p')%Z).
  { intros p' Hp'. simpl in Hp'.
    repeat (destruct Hp' as [<- | Hp']; [simpl; lia |]). contradiction. }
  apply (unstaffed_is_unselected None projects team _ v P2 Hb Hf HP2).
  intros tm Htm. destruct (unqualified P2 tm) eqn:Hu.
  - exact (pinned_to_zero None projects team _ v tm P2 Hb Hf Htm HP2 Hu).
  - apply (too_long_to_assign None projects team _ v tm P2 Hb Hf Htm HP2 Hpos).
    simpl in Htm.
    repeat (destruct Htm as [<- | Htm]; [try discriminate Hu; simpl; lia |]).
    contradiction.
Qed.

Lemma select_at_most_one v p :
  feasible (declared_variables projects team) (snd notebook_build) v ->
  In p projects ->
  0 <= value v (SelectProject (project_name p)) <= 1.
Proof.
  intros Hf Hp.
  destruct (binary_value v _ (proj1 Hf _ (select_declared projects team p Hp)))
    as [E | E]; rewrite E; lra.
Qed.

Lemma printed_values_optimal :
  optimal (declared_variables projects team) (snd notebook_build) printed_values.
Proof.
  split; [exact printed_values_feasible |].
  intros v Hf.
  rewrite (notebook_objective v), (notebook_objective printed_values).
  pose proof (work_order_generation_unselected v Hf) as H2.
  pose proof (select_at_most_one v _ Hf (or_introl eq_refl)) as H1.
  pose proof (select_at_most_one v _ Hf (or_intror (or_intror (or_introl eq_refl))))
    as H3.
  pose proof (select_at_most_one v _ Hf
                (or_intror (or_intror (or_intror (or_introl eq_refl))))) as H4.
  pose proof (select_at_most_one v _ Hf
                (or_intror (or_intror (or_intror (or_intror (or_introl eq_refl))))))
    as H5.
  cbn [project_name] in H1, H3, H4, H5.
  change (value printed_values (SelectProject "Secondary Deliverables reporting"))
    with 1.
  change (value printed_values (SelectProject "I&M Work Order generation")) with 0.
  change (value printed_values (SelectProject "ISS")) with 1.
  change (value printed_values (SelectProject "Network Interventions lists")) with 1.
  change (value printed_values (SelectProject "Pulse Report report generation"))
    with 1.
  lra.
Qed.

Lemma equals_one_of_value v x :
  binary v x ->
  (value v x == 1 -> equals_one (v x) = true)
  /\ (value v x == 0 -> equals_one (v x) = false).
Proof.
  intros Hb. pose proof (binary_equals_one v x Hb) as E.
  destruct (equals_one (v x)); split; intros H; try reflexivity;
    rewrite H in E; exfalso; lra.
Qed.

(** An optimum of the notebook's problem selects the four other projects. *)
Lemma optimum_selection v :
  optimal (declared_variables projects team) (snd notebook_build) v ->
  equals_one (v (SelectProject "Secondary Deliverables reporting")) = true
  /\ equals_one (v (SelectProject "I&M Work Order generation")) = false
  /\ equals_one (v (SelectProject "ISS")) = true
  /\ equals_one (v (SelectProject "Network Interventions lists")) = true
  /\ equals_one (v (SelectProject "Pulse Report report generation")) = true.
Proof.
  intros [Hf Hmax].
  pose proof (Hmax _ printed_values_feasible) as Hge.
  rewrite (notebook_objective v), (notebook_objective printed_values) in Hge.
  change (value printed_values (SelectProject "Secondary Deliverables reporting"))
    with 1 in Hge.
  change (value printed_values (SelectProject "I&M Work Order generation"))
    with 0 in Hge.
  change (value printed_values (SelectProject "ISS")) with 1 in Hge.
  change (value printed_values (SelectProject "Network Interventions lists"))
    with 1 in Hge.
  change (value printed_values (SelectProject "Pulse Report report generation"))
    with 1 in Hge.
  pose proof (work_order_generation_unselected v Hf) as H2.
  pose proof (select_at_most_one v _ Hf (or_introl eq_refl)) as H1.
  pose proof (select_at_most_one v _ Hf (or_intror (or_intror (or_introl eq_refl))))
    as H3.
  pose proof (select_at_most_one v _ Hf
                (or_intror (or_intror (or_intror (or_introl eq_refl))))) as H4.
  pose proof (select_at_most_one v _ Hf
                (or_intror (or_intror (or_intror (or_intror (or_introl eq_refl))))))
    as H5.
  cbn [project_name] in H1, H3, H4, H5.
  assert (Hbin : forall p, In p projects -> binary v (SelectProject (project_name p)))
    by (intros p Hp; apply (proj1 Hf), select_declared; exact Hp).
  repeat split.
  - apply (equals_one_of_value v _ (Hbin _ (or_introl eq_refl))). cbn [project_name]. lra.
  - apply (equals_one_of_value v _ (Hbin _ (or_intror (or_introl eq_refl)))).
    exact H2.
  - apply (equals_one_of_value v _
             (Hbin _ (or_intror (or_intror (or_introl eq_refl))))).
    cbn [project_name]. lra.
  - apply (equals_one_of_value v _
             (Hbin _ (or_intror (or_intror (or_intror (or_introl eq_refl)))))).
    cbn [project_name]. lra.
  - apply (equals_one_of_value v _
             (Hbin _ (or_intror (or_intror (or_intror (or_intror (or_introl eq_refl))))))).
    cbn [project_name]. lra.
Qed.

(** C1: on the notebook's five projects and six members, with no cap, the
    build completes; the values the run printed are an optimum; and whatever
    a solve returns, the status is Optimal, the selected projects are
    "Secondary Deliverables reporting", "ISS", "Network Interventions lists"
    and "Pulse Report report generation", and the total is 40. *)
Theorem reference_scenario :
  map hours_saved_per_month projects = [20; 40; 5; 5; 10]%Z
  /\ map hours_to_implement projects = [160; 200; 80; 40; 80]%Z
  /\ map hours_available team = [180; 140; 160; 220; 120; 140]%Z
  /\ exists pb,
      build_model None projects team empty_problem = (inr tt, pb)
      /\ solve (declared_variables projects team) pb StatusOptimal printed_values
      /\ forall s v,
           solve (declared_variables projects team) pb s v ->
           summary_status (summarise s v projects team) = "Optimal"
           /\ summary_selected (summarise s v projects team)
              = ["Secondary Deliverables reporting"; "ISS";
                 "Network Interventions lists"; "Pulse Report report generation"]
           /\ summary_total (summarise s v projects team) = 40%Z.
Proof.
  split; [reflexivity |]. split; [reflexivity |]. split; [reflexivity |].
  exists (snd notebook_build).
  split; [exact notebook_build_completes |].
  split; [apply solve_optimal; exact printed_values_optimal |].
  intros s v Hs. destruct Hs as [v Hopt | v Hnone].
  - destruct (optimum_selection v Hopt) as [E1 [E2 [E3 [E4 E5]]]].
    split; [reflexivity |].
    cbn [summarise summary_selected summary_total].
    unfold selected_projects, total_hours_saved.
    cbn [projects filter project_name]. unfold project_variables.
    rewrite E1, E2, E3, E4, E5. split; reflexivity.
  - exfalso. exact (Hnone _ printed_values_feasible).
Qed.

(** * Further properties *)

(** ** Descriptors *)

Lemma descriptor_outside (l : Z) :
  ~ (0 <= l <= 3)%Z ->
  get_level_of_python_descriptor l = inl (ValueError "Only values of 0-3 accepted").
Proof.
  intros H. destruct l as [| p | p]; try reflexivity; try (exfalso; lia).
  destruct p as [[q | q |] | [q | q |] |]; try reflexivity; exfalso; lia.
Qed.

Lemma descriptor_inside (l : Z) :
  (0 <= l <= 3)%Z -> exists s, get_level_of_python_descriptor l = inr s.
Proof.
  intros H.
  assert (E : l = 0%Z \/ l = 1%Z \/ l = 2%Z \/ l = 3%Z) by lia.
  destruct E as [-> | [-> | [-> | ->]]]; simpl; eauto.
Qed.

(** X1: [get_level_of_python_descriptor] names exactly the levels 0 to 3, each
    differently, and raises its [ValueError] on every other integer. *)
Theorem descriptor_defined_on_levels :
  (forall l, (0 <= l <= 3)%Z <-> exists s, get_level_of_python_descriptor l = inr s)
  /\ (forall l, ~ (0 <= l <= 3)%Z <->
        get_level_of_python_descriptor l
        = inl (ValueError "Only values of 0-3 accepted"))
  /\ (forall l l' s,
        get_level_of_python_descriptor l = inr s ->
        get_level_of_python_descriptor l' = inr s -> l = l').
Proof.
  assert (Hin : forall l s, get_level_of_python_descriptor l = inr s ->
                  (0 <= l <= 3)%Z).
  { intros l s H. destruct (Z_le_dec 0 l) as [H0 | H0];
      [destruct (Z_le_dec l 3) as [H3 | H3]; [lia |] |];
      rewrite descriptor_outside in H by lia; discriminate. }
  split; [| split].
  - intros l. split; [apply descriptor_inside | intros [s H]; eauto].
  - intros l. split; [apply descriptor_outside |].
    intros H Hl. destruct (descriptor_inside l Hl) as [s Hs]. congruence.
  - intros l l' s H H'.
    pose proof (Hin _ _ H) as R. pose proof (Hin _ _ H') as R'.
    assert (E : l = 0%Z \/ l = 1%Z \/ l = 2%Z \/ l = 3%Z) by lia.
    assert (E' : l' = 0%Z \/ l' = 1%Z \/ l' = 2%Z \/ l' = 3%Z) by lia.
    destruct E as [-> | [-> | [-> | ->]]];
      destruct E' as [-> | [-> | [-> | ->]]];
      simpl in H, H'; try reflexivity; congruence.
Qed.

Lemma constructed_level_in_range (l : pyval) :
  is_int l = true -> in_levels l = true -> (0 <= to_int l <= 3)%Z.
Proof.
  intros Hi Hl. destruct l as [| [|] | z | | |]; simpl in *;
    try discriminate; lia.
Qed.

(** X2: the descriptor lookup that [__repr__] makes on the level of a
    constructed [Project] or [TeamMember] returns a descriptor and never the
    [ValueError]: the level check of [__post_init__] keeps the level where
    the descriptor is defined. *)
Theorem descriptor_of_constructed_level :
  (forall name b e sk l p,
      new_Project name b e sk l = inr p ->
      exists s, get_level_of_python_descriptor (python_level_required p) = inr s)
  /\ (forall name c sk l tm,
      new_TeamMember name c sk l = inr tm ->
      exists s, get_level_of_python_descriptor (python_level tm) = inr s).
Proof.
  split.
  - intros name b e sk l p Hp. apply new_Project_inr in Hp.
    destruct Hp as [[_ [_ [_ [_ Hi]]]] [Hl [_ ->]]].
    exact (descriptor_inside _ (constructed_level_in_range l Hi Hl)).
  - intros name c sk l tm Hp. apply new_TeamMember_inr in Hp.
    destruct Hp as [[_ [_ [_ Hi]]] [Hl [_ ->]]].
    exact (descriptor_inside _ (constructed_level_in_range l Hi Hl)).
Qed.

(** ** More on validation *)

Lemma check_attribute_names_field (k : string) (a : annotation) (x : pyval) :
  conforms a x = false ->
  exists tail,
    check_attribute (k, a, x)
    = inl (AssertionError ("Expected " ++ k ++ " to be of type " ++ tail)).
Proof.
  intros H. destruct a; simpl in *; rewrite H; simpl; eauto.
Qed.

Lemma validate_annotations_skips (good rest : list attribute) :
  Forall (fun a => conforms (snd (fst a)) (snd a) = true) good ->
  validate_annotations (good ++ rest) = validate_annotations rest.
Proof.
  induction 1 as [| [[k a] x] good Hc _ IH]; [reflexivity |].
  cbn [app validate_annotations]. simpl in Hc.
  assert (E : check_attribute (k, a, x) = inr tt).
  { destruct a; simpl in *; rewrite Hc; reflexivity. }
  rewrite E. cbn [rbind]. exact IH.
Qed.

(** X3: [validate_annotations] passes exactly when every attribute matches its
    annotation; otherwise its error is the one of the first attribute, in
    annotation order, that does not match, and the message names that
    attribute. *)
Theorem validate_annotations_first_offender :
  (forall l,
      validate_annotations l = inr tt <->
      Forall (fun a => conforms (snd (fst a)) (snd a) = true) l)
  /\ (forall good k a x rest,
      Forall (fun a => conforms (snd (fst a)) (snd a) = true) good ->
      conforms a x = false ->
      validate_annotations (good ++ (k, a, x) :: rest) = check_attribute (k, a, x)
      /\ exists tail,
           check_attribute (k, a, x)
           = inl (AssertionError ("Expected " ++ k ++ " to be of type " ++ tail))).
Proof.
  split.
  - intros l. split.
    + intros H. apply Forall_forall. intros [[k a] x] Hin.
      exact (validate_annotations_inr l tt H k a x Hin).
    + intros H. apply validate_annotations_conforming. intros k a x Hin.
      rewrite Forall_forall in H. exact (H _ Hin).
  - intros good k a x rest Hgood Hbad.
    destruct (check_attribute_names_field k a x Hbad) as [tail Ht].
    split; [| eauto].
    rewrite validate_annotations_skips by exact Hgood.
    cbn [validate_annotations]. rewrite Ht. reflexivity.
Qed.

Lemma validate_annotations_first_offender_witness :
  validate_annotations
    ([("name", Ann_str, PyStr "Sweetums")]
       ++ ("hours_available", Ann_int, PyFloat 140)
       :: [("skills", Ann_List_str, PyNone)])
  = check_attribute ("hours_available", Ann_int, PyFloat 140)
  /\ exists tail,
       check_attribute ("hours_available", Ann_int, PyFloat 140)
       = inl (AssertionError ("Expected " ++ "hours_available" ++ " to be of type " ++ tail)).
Proof.
  apply (proj2 validate_annotations_first_offender).
  - repeat constructor.
  - reflexivity.
Defined.

Lemma issubset_false (a b : list string) (s : string) :
  In s a -> ~ In s b -> issubset a b = false.
Proof.
  intros Hin Hout. destruct (issubset a b) eqn:E; [| reflexivity].
  exfalso. apply Hout. exact (proj1 (issubset_incl a b) E s Hin).
Qed.

Lemma in_levels_int_false (z : Z) : ~ (0 <= z <= 3)%Z -> in_levels (PyInt z) = false.
Proof.
  intros H. destruct (in_levels (PyInt z)) eqn:E; [| reflexivity].
  exfalso. apply H. apply in_levels_int. exact E.
Qed.

(** X4: the checks of a constructor run in a fixed order, and the first that
    fails decides the error: an attribute of the wrong type (the name first)
    before the level, and the level before the skills. *)
Theorem constructor_checks_in_order :
  (forall name b e sk l,
      is_str name = false ->
      new_Project name b e sk l
      = inl (AssertionError ("Expected name to be of type <class 'str'>, got "
                               ++ type_repr name ++ " instead."))
      /\ new_TeamMember name b sk l
      = inl (AssertionError ("Expected name to be of type <class 'str'>, got "
                               ++ type_repr name ++ " instead.")))
  /\ (forall n b e sk l,
      ~ (0 <= l <= 3)%Z ->
      new_Project (PyStr n) (PyInt b) (PyInt e) (py_strs sk) (PyInt l)
      = inl (AssertionError "Invalid Python level required")
      /\ new_TeamMember (PyStr n) (PyInt b) (py_strs sk) (PyInt l)
      = inl (AssertionError "Invalid Python level"))
  /\ (forall n b e sk l s,
      (0 <= l <= 3)%Z -> In s sk -> ~ In s vocabulary ->
      new_Project (PyStr n) (PyInt b) (PyInt e) (py_strs sk) (PyInt l)
      = inl (AssertionError "Invalid skills required")
      /\ new_TeamMember (PyStr n) (PyInt b) (py_strs sk) (PyInt l)
      = inl (AssertionError "Invalid skills")).
Proof.
  assert (Hp : forall n b e sk l,
             validate_annotations
               [("name", Ann_str, PyStr n);
                ("hours_saved_per_month", Ann_int, PyInt b);
                ("hours_to_implement", Ann_int, PyInt e);
                ("skills_required", Ann_List_str, py_strs sk);
                ("python_level_required", Ann_int, PyInt l)] = inr tt).
  { intros. apply validate_annotations_conforming. intros k a x Hin. simpl in Hin.
    destruct Hin as [H | [H | [H | [H | [H | []]]]]]; inversion H; subst;
      try reflexivity; apply is_list_of_str_py_strs. }
  assert (Ht : forall n c sk l,
             validate_annotations
               [("name", Ann_str, PyStr n);
                ("hours_available", Ann_int, PyInt c);
                ("skills", Ann_List_str, py_strs sk);
                ("python_level", Ann_int, PyInt l)] = inr tt).
  { intros. apply validate_annotations_conforming. intros k a x Hin. simpl in Hin.
    destruct Hin as [H | [H | [H | [H | []]]]]; inversion H; subst;
      try reflexivity; apply is_list_of_str_py_strs. }
  split; [| split].
  - intros name b e sk l Hn. unfold new_Project, new_TeamMember.
    cbn [validate_annotations check_attribute conforms]. rewrite Hn.
    split; reflexivity.
  - intros n b e sk l Hl. unfold new_Project, new_TeamMember.
    rewrite Hp, Ht. cbn [rbind]. rewrite (in_levels_int_false l Hl).
    split; reflexivity.
  - intros n b e sk l s Hl Hin Hout. unfold new_Project, new_TeamMember.
    rewrite Hp, Ht. cbn [rbind].
    rewrite (proj2 (in_levels_int l) Hl). cbn [assert rbind ok].
    rewrite !to_str_list_py_strs, (issubset_false sk vocabulary s Hin Hout).
    split; reflexivity.
Qed.

Lemma constructor_checks_in_order_witness :
  (new_Project (PyInt 7) (PyFloat 1) (PyNone) (PyNone) (PyInt 9)
   = inl (AssertionError ("Expected name to be of type <class 'str'>, got "
                            ++ type_repr (PyInt 7) ++ " instead."))
   /\ new_TeamMember (PyInt 7) (PyFloat 1) (PyNone) (PyInt 9)
   = inl (AssertionError ("Expected name to be of type <class 'str'>, got "
                            ++ type_repr (PyInt 7) ++ " instead.")))
  /\ (new_Project (PyStr "ISS") (PyInt 5) (PyInt 80) (py_strs ["Java"]) (PyInt 4)
      = inl (AssertionError "Invalid Python level required")
      /\ new_TeamMember (PyStr "ISS") (PyInt 5) (py_strs ["Java"]) (PyInt 4)
      = inl (AssertionError "Invalid Python level"))
  /\ (new_Project (PyStr "ISS") (PyInt 5) (PyInt 80) (py_strs ["SQL"; "Java"]) (PyInt 1)
      = inl (AssertionError "Invalid skills required")
      /\ new_TeamMember (PyStr "ISS") (PyInt 5) (py_strs ["SQL"; "Java"]) (PyInt 1)
      = inl (AssertionError "Invalid skills")).
Proof.
  destruct constructor_checks_in_order as [H1 [H2 H3]].
  split; [| split].
  - apply (H1 (PyInt 7) (PyFloat 1) PyNone PyNone (PyInt 9)). reflexivity.
  - apply (H2 "ISS" 5%Z 80%Z ["Java"] 4%Z). lia.
  - apply (H3 "ISS" 5%Z 80%Z ["SQL"; "Java"] 1%Z "Java").
    + lia.
    + simpl. tauto.
    + simpl. intros [H | [H | [H | []]]]; discriminate.
Defined.

(** ** Qualification *)

(** X5: whether a member is qualified for a project depends on the skills as
    sets only, not on their order or repetition in the lists; and a member
    with every skill of another and a level at least as high is qualified
    wherever the other is. *)
Theorem qualification_by_skill_sets (p p' : Project) (tm tm' : TeamMember) :
  ((forall s, In s (skills_required p) <-> In s (skills_required p')) ->
   (forall s, In s (skills tm) <-> In s (skills tm')) ->
   python_level_required p = python_level_required p' ->
   python_level tm = python_level tm' ->
   unqualified p tm = unqualified p' tm')
  /\ ((forall s, In s (skills tm) -> In s (skills tm')) ->
      (python_level tm <= python_level tm')%Z ->
      unqualified p tm = false -> unqualified p tm' = false).
Proof.
  split.
  - intros Hp Ht Hl Hm.
    destruct (unqualified p tm) eqn:E; destruct (unqualified p' tm') eqn:E';
      try reflexivity; exfalso.
    + apply unqualified_false_iff in E'. destruct E' as [Hs Hlev].
      assert (F : unqualified p tm = false).
      { apply unqualified_false_iff. split.
        - intros s Hs'. apply Ht, Hs, Hp, Hs'.
        - lia. }
      congruence.
    + apply unqualified_false_iff in E. destruct E as [Hs Hlev].
      assert (F : unqualified p' tm' = false).
      { apply unqualified_false_iff. split.
        - intros s Hs'. apply Ht, Hs, Hp, Hs'.
        - lia. }
      congruence.
  - intros Hs Hl E. apply unqualified_false_iff in E. destruct E as [Hsub Hlev].
    apply unqualified_false_iff. split; [auto | lia].
Qed.

Lemma qualification_by_skill_sets_witness :
  let p := mkProject "ISS" 5 80 ["SQL"] 1 in
  let p' := mkProject "ISS" 5 80 ["SQL"; "SQL"] 1 in
  let tm := mkTeamMember "Kermit the Frog" 180 ["SQL"; "Excel"] 2 in
  let tm' := mkTeamMember "Rowlf the Dog" 140 ["Excel"; "APIs"; "SQL"] 3 in
  (unqualified p tm = false -> unqualified p tm' = false)
  /\ unqualified p tm = unqualified p' tm.
Proof.
  intros p p' tm tm'. split.
  - apply (proj2 (qualification_by_skill_sets p p tm tm')).
    + simpl. tauto.
    + simpl. lia.
  - apply (proj1 (qualification_by_skill_sets p p' tm tm)).
    + simpl. tauto.
    + tauto.
    + reflexivity.
    + reflexivity.
Defined.

(** ** The build, row by row *)

Lemma add_rows_app (l1 l2 : list (string * LpConstraint)) (pb : LpProblem) :
  add_rows (l1 ++ l2) pb =
  match add_rows l1 pb with
  | (inl e, pb') => (inl e, pb')
  | (inr _, pb') => add_rows l2 pb'
  end.
Proof.
  revert pb. induction l1 as [| [n c] l1 IH]; intros pb; cbn [app add_rows].
  - reflexivity.
  - destruct (existsb _ _); [reflexivity | apply IH].
Qed.

Lemma ret_runs : runs_as (ret tt) [].
Proof. intros pb. reflexivity. Qed.

Lemma add_constraint_runs (c : LpConstraint) (n : string) :
  runs_as (add_constraint c n) [(lp_name n, c)].
Proof.
  intros pb. unfold add_constraint. cbn [add_rows].
  destruct (existsb _ _); reflexivity.
Qed.

Lemma seq_runs (s k : Stmt unit) (l1 l2 : list (string * LpConstraint)) :
  runs_as s l1 -> runs_as k l2 -> runs_as (s >> k) (l1 ++ l2).
Proof.
  intros Hs Hk pb. unfold seq. rewrite add_rows_app, Hs.
  destruct (add_rows l1 pb) as [[e | u] pb']; [reflexivity | apply Hk].
Qed.

Lemma for_each_runs {A} (l : list A) (body : A -> Stmt unit)
    (f : A -> list (string * LpConstraint)) :
  (forall x, runs_as (body x) (f x)) -> runs_as (for_each l body) (flat_map f l).
Proof.
  intros Hb. induction l as [| x l IH]; cbn [for_each flat_map].
  - apply ret_runs.
  - apply seq_runs; auto.
Qed.

Lemma flat_map_singleton {A B} (f : A -> B) (l : list A) :
  flat_map (fun x => [f x]) l = map f l.
Proof.
  induction l as [| x l IH]; simpl; [reflexivity | rewrite IH; reflexivity].
Qed.

Lemma flat_map_map_rows {A B C} (g : A -> B -> C) (l : list B) (x : A) :
  flat_map (fun y => [g x y]) l = map (g x) l.
Proof. apply flat_map_singleton. Qed.

Lemma only_if_selected_cell_runs ps ts :
  runs_as (only_if_selected_cell ps ts) (only_if_selected_rows ps ts).
Proof.
  unfold only_if_selected_cell, only_if_selected_rows.
  apply for_each_runs. intros tm.
  rewrite <- flat_map_singleton. apply for_each_runs. intros p.
  apply add_constraint_runs.
Qed.

Lemma skill_level_cell_runs ps ts :
  runs_as (skill_level_cell ps ts) (skill_level_rows ps ts).
Proof.
  unfold skill_level_cell, skill_level_rows.
  apply for_each_runs. intros p. apply for_each_runs. intros tm.
  destruct (unqualified p tm); [apply add_constraint_runs | apply ret_runs].
Qed.

Lemma hours_available_cell_runs ps ts :
  runs_as (hours_available_cell ps ts) (hours_available_rows ps ts).
Proof.
  unfold hours_available_cell, hours_available_rows.
  rewrite <- flat_map_singleton. apply for_each_runs. intros tm.
  apply add_constraint_runs.
Qed.

Lemma team_assignment_cell_runs ps ts :
  runs_as (team_assignment_cell ps ts) (team_assignment_rows ps ts).
Proof.
  unfold team_assignment_cell, team_assignment_rows.
  rewrite <- flat_map_singleton. apply for_each_runs. intros p.
  apply add_constraint_runs.
Qed.

Lemma cap_statement_runs (cap : option N) ps :
  runs_as match cap with
          | Some bound => max_concurrent_cell (Z.of_N bound) ps
          | None => ret tt
          end (cap_rows cap ps).
Proof.
  destruct cap as [bound |]; [| apply ret_runs].
  exact (add_constraint_runs _ "Max_Concurrent_Projects").
Qed.

(** A build is the objective followed by its rows. *)
Lemma build_model_runs cap ps ts pb :
  build_model cap ps ts pb =
  add_rows (rows cap ps ts) (mkProblem (Some (objective_expression ps)) (constraints pb)).
Proof.
  unfold build_model, rows.
  change ((set_objective (objective_expression ps) "Total Hours Saved" >> ?k) pb)
    with (k (mkProblem (Some (objective_expression ps)) (constraints pb))).
  revert pb. intros pb.
  apply (seq_runs _ _ _ _ (cap_statement_runs cap ps)).
  apply (seq_runs _ _ _ _ (only_if_selected_cell_runs ps ts)).
  apply (seq_runs _ _ _ _ (skill_level_cell_runs ps ts)).
  apply (seq_runs _ _ _ _ (hours_available_cell_runs ps ts)).
  apply team_assignment_cell_runs.
Qed.

Lemma name_taken (n : string) (names : list string) :
  existsb (String.eqb n) names = true <-> In n names.
Proof.
  rewrite existsb_exists. split.
  - intros [x [Hin Heq]]. apply String.eqb_eq in Heq. subst. exact Hin.
  - intros Hin. exists n. split; [exact Hin | apply String.eqb_refl].
Qed.

Lemma problem_eta (pb : LpProblem) : pb = mkProblem (objective pb) (constraints pb).
Proof. destruct pb; reflexivity. Qed.

(** Rows with fresh, pairwise distinct names all go in. *)
Lemma add_rows_fresh (l : list (string * LpConstraint)) (pb : LpProblem) :
  NoDup (map fst l) ->
  (forall n, In n (map fst l) -> ~ In n (map fst (constraints pb))) ->
  add_rows l pb = (inr tt, mkProblem (objective pb) (constraints pb ++ l)).
Proof.
  revert pb. induction l as [| [n c] l IH]; intros pb Hnd Hfresh; cbn [add_rows].
  - rewrite app_nil_r. apply f_equal, problem_eta.
  - cbn [map fst] in Hnd. inversion Hnd as [| n0 l0 Hn Hl]; subst.
    destruct (existsb (String.eqb n) (map fst (constraints pb))) eqn:E.
    + exfalso. apply name_taken in E. apply (Hfresh n); [left; reflexivity | exact E].
    + rewrite IH; cbn [objective constraints].
      * rewrite <- app_assoc. reflexivity.
      * exact Hl.
      * intros m Hm Hin. rewrite map_app in Hin. apply in_app_or in Hin.
        destruct Hin as [Hin | [<- | []]].
        -- apply (Hfresh m); [right; exact Hm | exact Hin].
        -- apply Hn. exact Hm.
Qed.

(** Whatever the outcome, the problem holds a prefix of the rows after what
    it held; the run completes only on fresh, pairwise distinct names, and
    stops only on [PulpError]. *)
Lemma add_rows_outcome (l : list (string * LpConstraint)) (pb : LpProblem) r pb' :
  add_rows l pb = (r, pb') ->
  exists done rest : list (string * LpConstraint),
    l = (done ++ rest)%list
    /\ pb' = mkProblem (objective pb) (constraints pb ++ done)
    /\ match r with
       | inr _ =>
           rest = [] /\ NoDup (map fst l)
           /\ (forall n, In n (map fst l) -> ~ In n (map fst (constraints pb)))
       | inl e =>
           exists n c rest',
             rest = (n, c) :: rest'
             /\ e = PulpError ("overlapping constraint names: " ++ n)
             /\ In n (map fst (constraints pb ++ done)%list)
       end.
Proof.
  revert pb. induction l as [| [n c] l IH]; intros pb H; cbn [add_rows] in H.
  - inversion H; subst. exists [], [].
    split; [reflexivity |]. split; [rewrite app_nil_r; apply problem_eta |].
    split; [reflexivity |]. split; [constructor | intros n []].
  - destruct (existsb (String.eqb n) (map fst (constraints pb))) eqn:E.
    + inversion H; subst. exists [], ((n, c) :: l).
      split; [reflexivity |]. split; [rewrite app_nil_r; apply problem_eta |].
      exists n, c, l. split; [reflexivity |]. split; [reflexivity |].
      rewrite app_nil_r. apply name_taken. exact E.
    + apply IH in H. cbn [objective constraints] in H.
      destruct H as [done [rest [Hl [Hpb Hr]]]].
      exists ((n, c) :: done), rest.
      split; [cbn [app]; rewrite Hl; reflexivity |].
      split; [rewrite Hpb, <- app_assoc; reflexivity |].
      destruct r as [e | u].
      * destruct Hr as [n' [c' [rest' [Hrest [He Hin]]]]].
        exists n', c', rest'. split; [exact Hrest |]. split; [exact He |].
        rewrite <- app_assoc in Hin. exact Hin.
      * destruct Hr as [Hrest [Hnd Hfresh]].
        split; [exact Hrest |]. split.
        -- cbn [map fst]. constructor; [| exact Hnd].
           intros Hin. apply (Hfresh n Hin).
           rewrite map_app. apply in_or_app. right. left. reflexivity.
        -- intros m [<- | Hm] Hin.
           ++ cbn [fst] in Hin. apply name_taken in Hin. congruence.
           ++ apply (Hfresh m Hm). rewrite map_app. apply in_or_app. left. exact Hin.
Qed.

Lemma build_completed cap ps ts pb :
  build_model cap ps ts empty_problem = (inr tt, pb) ->
  NoDup (map fst (rows cap ps ts))
  /\ pb = mkProblem (Some (objective_expression ps)) (rows cap ps ts).
Proof.
  intros H. rewrite build_model_runs in H. apply add_rows_outcome in H.
  destruct H as [done [rest [Hl [Hpb [Hrest [Hnd _]]]]]].
  subst rest. rewrite app_nil_r in Hl. subst done.
  split; [exact Hnd | exact Hpb].
Qed.

(** How a build ends: the objective is set, the problem holds the rows up
    to where the build stopped, and it stopped early only at a name that was
    already taken, with pulp's error for that name. *)
Lemma build_outcome cap ps ts r pb :
  build_model cap ps ts empty_problem = (r, pb) ->
  objective pb = Some (objective_expression ps)
  /\ exists rest : list (string * LpConstraint),
       rows cap ps ts = (constraints pb ++ rest)%list
       /\ match r with
          | inr _ => rest = [] /\ NoDup (map fst (rows cap ps ts))
          | inl e =>
              exists n c rest',
                rest = (n, c) :: rest'
                /\ In n (map fst (constraints pb))
                /\ e = PulpError ("overlapping constraint names: " ++ n)
          end.
Proof.
  intros H. rewrite build_model_runs in H. apply add_rows_outcome in H.
  cbn [objective constraints app] in H.
  destruct H as [done [rest [Hl [Hpb Hr]]]]. subst pb. cbn [objective constraints].
  split; [reflexivity |]. exists rest. split; [exact Hl |].
  destruct r as [e | u].
  - destruct Hr as [n [c [rest' [Hrest [He Hin]]]]]. exists n, c, rest'. auto.
  - destruct Hr as [Hrest [Hnd _]]. auto.
Qed.

(** X6: a build completes exactly when no two of its rows get the same name, and
    then the problem is the objective with the rows in order.  A build that
    fails has added the rows before the first repeated name, and stops there
    with pulp's error for that name. *)
Theorem build_is_its_rows cap ps ts :
  (NoDup (map fst (rows cap ps ts)) ->
   build_model cap ps ts empty_problem
   = (inr tt, mkProblem (Some (objective_expression ps)) (rows cap ps ts)))
  /\ (forall r pb,
      build_model cap ps ts empty_problem = (r, pb) ->
      objective pb = Some (objective_expression ps)
      /\ exists rest : list (string * LpConstraint),
           rows cap ps ts = (constraints pb ++ rest)%list
           /\ match r with
              | inr _ => rest = [] /\ NoDup (map fst (rows cap ps ts))
              | inl e =>
                  exists n c rest',
                    rest = (n, c) :: rest'
                    /\ In n (map fst (constraints pb))
                    /\ e = PulpError ("overlapping constraint names: " ++ n)
              end).
Proof.
  split.
  - intros Hnd. rewrite build_model_runs.
    rewrite add_rows_fresh; [reflexivity | exact Hnd | intros n _ []].
  - intros r pb H. exact (build_outcome cap ps ts r pb H).
Qed.

Lemma distinctb_NoDup (l : list string) : distinctb l = true -> NoDup l.
Proof.
  induction l as [| x l IH]; cbn [distinctb]; intros H.
  - constructor.
  - apply andb_prop in H. destruct H as [Hx Hl]. constructor; [| auto].
    intros Hin. apply name_taken in Hin. rewrite Hin in Hx. discriminate.
Qed.

Lemma build_is_its_rows_witness :
  build_model None projects team empty_problem
  = (inr tt, mkProblem (Some (objective_expression projects)) (rows None projects team)).
Proof.
  apply (proj1 (build_is_its_rows None projects team)).
  apply distinctb_NoDup. vm_compute. reflexivity.
Defined.

(** ** Names *)

Lemma lp_name_app (a b : string) : lp_name (a ++ b) = (lp_name a ++ lp_name b)%string.
Proof.
  induction a as [| c a IH]; cbn [append lp_name]; [reflexivity |].
  rewrite IH. reflexivity.
Qed.

Lemma NoDup_map_compose {A} (f : A -> string) (g : string -> string) (l : list A) :
  NoDup (map (fun x => g (f x)) l) -> NoDup (map f l).
Proof.
  intros H. rewrite <- (map_map f g) in H. exact (NoDup_map_inv g _ H).
Qed.

Lemma rows_names_split cap ps ts :
  NoDup (map fst (rows cap ps ts)) ->
  NoDup (map fst (hours_available_rows ps ts))
  /\ NoDup (map fst (team_assignment_rows ps ts)).
Proof.
  unfold rows. rewrite !map_app. intros H.
  apply NoDup_app_remove_l in H. apply NoDup_app_remove_l in H.
  apply NoDup_app_remove_l in H. split.
  - apply NoDup_app_remove_r in H. exact H.
  - apply NoDup_app_remove_l in H. exact H.
Qed.

(** A build that completes had no two projects and no two members of the
    same name, not even of names that differ only in characters pulp
    replaces. *)
Lemma completed_names_distinct cap ps ts pb :
  build_model cap ps ts empty_problem = (inr tt, pb) ->
  NoDup (map (fun p => lp_name (project_name p)) ps)
  /\ NoDup (map (fun tm => lp_name (member_name tm)) ts)
  /\ NoDup (map project_name ps)
  /\ NoDup (map member_name ts).
Proof.
  intros H. apply build_completed in H. destruct H as [Hnd _].
  apply rows_names_split in Hnd. destruct Hnd as [Ht Hp].
  assert (Hp' : NoDup (map (fun p => lp_name (project_name p)) ps)).
  { unfold team_assignment_rows in Hp. rewrite map_map in Hp. cbn [fst] in Hp.
    apply (NoDup_map_compose (fun p => lp_name (project_name p))
             (fun s => (lp_name "Team_Assignment_" ++ s)%string)).
    erewrite map_ext; [exact Hp |]. intros p. cbn beta.
    rewrite lp_name_app. reflexivity. }
  assert (Ht' : NoDup (map (fun tm => lp_name (member_name tm)) ts)).
  { unfold hours_available_rows in Ht. rewrite map_map in Ht. cbn [fst] in Ht.
    apply (NoDup_map_compose (fun tm => lp_name (member_name tm))
             (fun s => (lp_name "Hours_Available_" ++ s)%string)).
    erewrite map_ext; [exact Ht |]. intros tm. cbn beta.
    rewrite lp_name_app. reflexivity. }
  split; [exact Hp' |]. split; [exact Ht' |]. split.
  - exact (NoDup_map_compose project_name lp_name ps Hp').
  - exact (NoDup_map_compose member_name lp_name ts Ht').
Qed.

(** X7: a build that completes had no two projects and no two members of the
    same name, not even of names that differ only in characters pulp
    replaces. *)
Theorem completed_build_has_distinct_names cap ps ts pb :
  build_model cap ps ts empty_problem = (inr tt, pb) ->
  NoDup (map (fun p => lp_name (project_name p)) ps)
  /\ NoDup (map (fun tm => lp_name (member_name tm)) ts)
  /\ NoDup (map project_name ps)
  /\ NoDup (map member_name ts).
Proof.
  exact (completed_names_distinct cap ps ts pb).
Qed.

Lemma completed_build_has_distinct_names_witness :
  NoDup (map (fun p => lp_name (project_name p)) projects)
  /\ NoDup (map (fun tm => lp_name (member_name tm)) team)
  /\ NoDup (map project_name projects)
  /\ NoDup (map member_name team).
Proof.
  apply (completed_build_has_distinct_names None projects team (snd notebook_build)).
  vm_compute. reflexivity.
Defined.

(** ** More on solved instances *)

Lemma assigned_only_if_selected cap ps ts pb v tm p :
  build_model cap ps ts empty_problem = (inr tt, pb) ->
  feasible (declared_variables ps ts) pb v ->
  In tm ts -> In p ps ->
  value v (Assign (member_name tm) (project_name p))
  <= value v (SelectProject (project_name p)).
Proof.
  intros Hb [_ Hc] Htm Hp.
  pose proof (build_emits_only_if_selected cap ps ts tm p Htm Hp _ _ _ Hb) as Hin.
  apply Hc in Hin. cbn [holds] in Hin.
  rewrite !eval_of_var in Hin. exact Hin.
Qed.

Lemma some_term_is_one {A} (f : A -> Q) (l : list A) :
  (forall x, In x l -> f x == 0 \/ f x == 1) ->
  1 <= Qsum (map f l) ->
  exists x, In x l /\ f x == 1.
Proof.
  induction l as [| y l IH]; cbn [map Qsum fold_right]; intros Hb Hs.
  - exfalso. lra.
  - destruct (Hb y (or_introl eq_refl)) as [E | E].
    + change (fold_right Qplus 0) with Qsum in Hs. rewrite E in Hs.
      destruct IH as [x [Hx Hfx]].
      * intros x Hx. apply Hb. right. exact Hx.
      * lra.
      * exists x. split; [right; exact Hx | exact Hfx].
    + exists y. split; [left; reflexivity | exact E].
Qed.

(** X8: in a solved instance a member is assigned only to selected projects:
    every pair the extraction emits has its project among the selected
    ones. *)
Theorem assigned_projects_are_selected cap ps ts pb v (m n : string) :
  build_model cap ps ts empty_problem = (inr tt, pb) ->
  feasible (declared_variables ps ts) pb v ->
  In (m, n) (team_assignments v ps ts) ->
  In n (selected_projects v ps).
Proof.
  intros Hb Hf Hin. apply in_team_assignments in Hin.
  destruct Hin as [tm [p [Htm [Hp [Hm [Hn Hone]]]]]]. subst m n.
  apply in_selected_projects. exists p. split; [exact Hp |]. split; [reflexivity |].
  pose proof (assigned_only_if_selected _ _ _ _ _ _ _ Hb Hf Htm Hp) as Hle.
  apply equals_one_iff in Hone. destruct Hone as [q [Hq H1]].
  assert (Ha : value v (Assign (member_name tm) (project_name p)) == 1)
    by (unfold value; rewrite Hq; exact H1).
  pose proof (proj1 Hf _ (select_declared ps ts p Hp)) as Hbin.
  apply (equals_one_of_value v _ Hbin).
  destruct (binary_value v _ Hbin) as [E | E]; [rewrite E, Ha in Hle; lra | exact E].
Qed.

Lemma assigned_projects_are_selected_witness :
  In "ISS" (selected_projects printed_values projects).
Proof.
  apply (assigned_projects_are_selected None projects team (snd notebook_build)
           printed_values "Pepe the King Prawn" "ISS").
  - vm_compute. reflexivity.
  - apply feasibleb_sound. vm_compute. reflexivity.
  - vm_compute. tauto.
Defined.

(** X9: in a solved instance every selected project is staffed: the extraction
    emits for it a pair with a member who has each skill the project requires,
    at a level not below the required one. *)
Theorem selected_projects_are_staffed cap ps ts pb v (n : string) :
  build_model cap ps ts empty_problem = (inr tt, pb) ->
  feasible (declared_variables ps ts) pb v ->
  In n (selected_projects v ps) ->
  exists tm p,
    In tm ts /\ In p ps /\ project_name p = n
    /\ In (member_name tm, n) (team_assignments v ps ts)
    /\ (forall s, In s (skills_required p) -> In s (skills tm))
    /\ (python_level tm >= python_level_required p)%Z.
Proof.
  intros Hb Hf Hin. apply in_selected_projects in Hin.
  destruct Hin as [p [Hp [Hn Hone]]]. subst n.
  apply equals_one_iff in Hone. destruct Hone as [q [Hq H1]].
  assert (Hs : value v (SelectProject (project_name p)) == 1)
    by (unfold value; rewrite Hq; exact H1).
  pose proof (staffed_if_selected _ _ _ _ _ _ Hb Hf Hp) as Hst.
  rewrite Hs in Hst.
  destruct (some_term_is_one
              (fun tm => value v (Assign (member_name tm) (project_name p))) ts)
    as [tm [Htm Ha]].
  - intros tm Htm. apply binary_value. apply (proj1 Hf).
    apply assign_declared; assumption.
  - exact Hst.
  - exists tm, p. split; [exact Htm |]. split; [exact Hp |]. split; [reflexivity |].
    assert (Hbin : binary v (Assign (member_name tm) (project_name p)))
      by (apply (proj1 Hf), assign_declared; assumption).
    split.
    + apply in_team_assignments. exists tm, p.
      split; [exact Htm |]. split; [exact Hp |]. split; [reflexivity |].
      split; [reflexivity |]. apply (equals_one_of_value v _ Hbin). exact Ha.
    + apply unqualified_false_iff.
      destruct (unqualified p tm) eqn:Hu; [exfalso | reflexivity].
      pose proof (pinned_to_zero _ _ _ _ _ _ _ Hb Hf Htm Hp Hu) as Hz.
      rewrite Hz in Ha. lra.
Qed.

Lemma selected_projects_are_staffed_witness :
  exists tm p,
    In tm team /\ In p projects /\ project_name p = "ISS"
    /\ In (member_name tm, "ISS") (team_assignments printed_values projects team)
    /\ (forall s, In s (skills_required p) -> In s (skills tm))
    /\ (python_level tm >= python_level_required p)%Z.
Proof.
  apply (selected_projects_are_staffed None projects team (snd notebook_build)
           printed_values "ISS").
  - vm_compute. reflexivity.
  - apply feasibleb_sound. vm_compute. reflexivity.
  - vm_compute. tauto.
Defined.

(** X10: in a solved instance, when no project has negative hours to implement,
    no member is assigned to a project that takes more hours than the member
    has available; a member without hours is assigned to no project that
    takes any. *)
Theorem never_assigned_beyond_hours cap ps ts pb v tm p :
  build_model cap ps ts empty_problem = (inr tt, pb) ->
  feasible (declared_variables ps ts) pb v ->
  In tm ts -> In p ps ->
  (forall p', In p' ps -> (0 <= hours_to_implement p')%Z) ->
  (hours_available tm < hours_to_implement p)%Z ->
  ~ In (member_name tm, project_name p) (team_assignments v ps ts).
Proof.
  intros Hb Hf Htm Hp Hpos Hlt Hin.
  pose proof (too_long_to_assign _ _ _ _ _ _ _ Hb Hf Htm Hp Hpos Hlt) as Hz.
  apply in_team_assignments in Hin.
  destruct Hin as [tm' [p' [_ [_ [_ [_ Hone]]]]]].
  apply equals_one_iff in Hone. destruct Hone as [q [Hq H1]].
  unfold value in Hz. rewrite Hq in Hz. lra.
Qed.

Lemma never_assigned_beyond_hours_witness :
  ~ In ("Rowlf the Dog", "I&M Work Order generation")
       (team_assignments printed_values projects team).
Proof.
  apply (never_assigned_beyond_hours None projects team (snd notebook_build)
           printed_values
           (mkTeamMember "Rowlf the Dog" 140 ["APIs"; "SQL"; "Excel"] 3)
           (mkProject "I&M Work Order generation" 40 200 ["SQL"; "Excel"; "APIs"] 1)).
  - vm_compute. reflexivity.
  - apply feasibleb_sound. vm_compute. reflexivity.
  - simpl. tauto.
  - simpl. tauto.
  - intros p' Hp'. simpl in Hp'.
    repeat (destruct Hp' as [<- | Hp']; [simpl; lia |]). contradiction.
  - simpl. lia.
Defined.

(** X11: in a solved instance a project for which no member of the team is
    qualified is not selected; the build does not refuse it, the constraints
    rule it out. *)
Theorem project_without_qualified_member_unselected cap ps ts pb v p :
  build_model cap ps ts empty_problem = (inr tt, pb) ->
  feasible (declared_variables ps ts) pb v ->
  In p ps ->
  (forall tm, In tm ts ->
     ~ ((forall s, In s (skills_required p) -> In s (skills tm))
        /\ (python_level tm >= python_level_required p)%Z)) ->
  ~ In (project_name p) (selected_projects v ps).
Proof.
  intros Hb Hf Hp Hnone Hin.
  assert (Hz : value v (SelectProject (project_name p)) == 0).
  { apply (unstaffed_is_unselected _ _ _ _ _ _ Hb Hf Hp). intros tm Htm.
    apply (pinned_to_zero _ _ _ _ _ _ _ Hb Hf Htm Hp).
    destruct (unqualified p tm) eqn:Hu; [reflexivity |].
    exfalso. apply (Hnone tm Htm). apply unqualified_false_iff. exact Hu. }
  apply in_selected_projects in Hin. destruct Hin as [p' [_ [_ Hone]]].
  apply equals_one_iff in Hone. destruct Hone as [q [Hq H1]].
  unfold value in Hz. rewrite Hq in Hz. lra.
Qed.

Lemma project_without_qualified_member_unselected_witness :
  let ps := [mkProject "Pulse Report report generation" 10 80 ["SQL"; "APIs"] 3] in
  let ts := [mkTeamMember "Sweetums" 140 ["Excel"] 1] in
  fst (build_model None ps ts empty_problem) = inr tt
  /\ ~ In "Pulse Report report generation" (selected_projects all_zero ps).
Proof.
  intros ps ts. split; [reflexivity |].
  apply (project_without_qualified_member_unselected None ps ts
           (snd (build_model None ps ts empty_problem)) all_zero
           (mkProject "Pulse Report report generation" 10 80 ["SQL"; "APIs"] 3)).
  - vm_compute. reflexivity.
  - apply feasibleb_sound. vm_compute. reflexivity.
  - simpl. tauto.
  - intros tm [<- | []] [Hs _]. specialize (Hs "SQL" (or_introl eq_refl)).
    simpl in Hs. destruct Hs as [Hs | []]. discriminate.
Defined.

(** ** The objective and the total *)

Lemma weighted_sum_of_counted (v : assignment) {A} (key : A -> LpVariable)
    (w : A -> Z) (l : list A) :
  (forall x, In x l -> binary v (key x)) ->
  Qsum (map (fun x => value v (key x) * inject_Z (w x)) l)
  == inject_Z (Zsum (map w (filter (fun x => equals_one (v (key x))) l))).
Proof.
  induction l as [| x l IH]; intros Hb.
  - reflexivity.
  - cbn [map Qsum fold_right filter].
    change (fold_right Qplus 0) with Qsum.
    rewrite IH by (intros; apply Hb; right; assumption).
    rewrite (binary_equals_one v _ (Hb x (or_introl eq_refl))).
    destruct (equals_one _); cbn [map Zsum fold_right].
    + change (fold_right Z.add 0%Z) with Zsum.
      rewrite inject_Z_plus. ring.
    + ring.
Qed.

Lemma eval_objective (v : assignment) (ps : list Project) :
  eval v (objective_expression ps)
  == Qsum (map (fun p => value v (SelectProject (project_name p))
                         * inject_Z (hours_saved_per_month p)) ps).
Proof.
  unfold objective_expression. rewrite eval_lpSum, map_map.
  apply Qsum_ext. intros p _. apply eval_times.
Qed.

(** X12: in a solved instance the total the notebook adds up from the selected
    projects is the value of the objective the solver maximised. *)
Theorem total_is_objective_value cap ps ts pb v :
  build_model cap ps ts empty_problem = (inr tt, pb) ->
  feasible (declared_variables ps ts) pb v ->
  objective_value pb v == inject_Z (total_hours_saved v ps).
Proof.
  intros Hb Hf. apply build_completed in Hb. destruct Hb as [_ ->].
  unfold objective_value. cbn [objective]. rewrite eval_objective.
  unfold total_hours_saved.
  apply (weighted_sum_of_counted v (fun p => SelectProject (project_name p))
           hours_saved_per_month ps).
  intros p Hp. apply (proj1 Hf). apply select_declared. exact Hp.
Qed.

Lemma total_is_objective_value_witness :
  objective_value (snd notebook_build) printed_values
  == inject_Z (total_hours_saved printed_values projects).
Proof.
  apply (total_is_objective_value None projects team (snd notebook_build)
           printed_values).
  - vm_compute. reflexivity.
  - apply feasibleb_sound. vm_compute. reflexivity.
Defined.

(** ** When a solution exists *)

Lemma eval_sum_at_zero {A} (f : A -> LpAffineExpression) (l : list A) :
  (forall x, In x l -> eval all_zero (f x) == 0) ->
  eval all_zero (lpSum (map f l)) == 0.
Proof.
  intros H. rewrite eval_lpSum, map_map.
  rewrite (Qsum_ext _ (fun _ => 0)) by exact H. apply Qsum_zero.
Qed.

Lemma eval_var_at_zero (x : LpVariable) : eval all_zero (of_var x) == 0.
Proof. rewrite eval_of_var. reflexivity. Qed.

Lemma eval_times_at_zero (x : LpVariable) (k : Z) : eval all_zero (times x k) == 0.
Proof. rewrite eval_times. unfold value, all_zero. ring. Qed.

(** With no hours negative, every row holds when every variable is zero. *)
Lemma rows_hold_at_zero cap ps ts :
  (forall tm, In tm ts -> (0 <= hours_available tm)%Z) ->
  forall n c, In (n, c) (rows cap ps ts) -> holds all_zero c.
Proof.
  intros Hhours n c Hin. unfold rows in Hin.
  repeat (apply in_app_or in Hin; destruct Hin as [Hin | Hin]).
  - destruct cap as [bound |]; [| contradiction].
    destruct Hin as [Heq | []]. inversion Heq; subst. cbn [holds].
    rewrite eval_sum_at_zero by (intros; apply eval_var_at_zero).
    rewrite eval_of_int. change 0 with (inject_Z 0). rewrite <- Zle_Qle. lia.
  - unfold only_if_selected_rows in Hin. apply in_flat_map in Hin.
    destruct Hin as [tm [_ Hin]]. apply in_map_iff in Hin.
    destruct Hin as [p [Heq _]]. inversion Heq; subst. cbn [holds].
    rewrite !eval_var_at_zero. apply Qle_refl.
  - unfold skill_level_rows in Hin. apply in_flat_map in Hin.
    destruct Hin as [p [_ Hin]]. apply in_flat_map in Hin.
    destruct Hin as [tm [_ Hin]].
    destruct (unqualified p tm); [| contradiction].
    destruct Hin as [Heq | []]. inversion Heq; subst. cbn [holds].
    rewrite eval_var_at_zero, eval_of_int. reflexivity.
  - unfold hours_available_rows in Hin. apply in_map_iff in Hin.
    destruct Hin as [tm [Heq Htm]]. inversion Heq; subst. cbn [holds].
    unfold total_hours_assigned.
    rewrite eval_sum_at_zero by (intros; apply eval_times_at_zero).
    rewrite eval_of_int. change 0 with (inject_Z 0). rewrite <- Zle_Qle. auto.
  - unfold team_assignment_rows in Hin. apply in_map_iff in Hin.
    destruct Hin as [p [Heq _]]. inversion Heq; subst. cbn [holds].
    unfold total_team_assigned.
    rewrite eval_sum_at_zero by (intros; apply eval_var_at_zero).
    rewrite eval_var_at_zero. apply Qle_refl.
Qed.

Lemma selects_sum_nonneg ps ts pb v :
  feasible (declared_variables ps ts) pb v ->
  0 <= Qsum (map (fun p => value v (SelectProject (project_name p))) ps).
Proof.
  intros Hf. apply Qsum_nonneg. intros p Hp.
  destruct (binary_value v _ (proj1 Hf _ (select_declared ps ts p Hp))) as [E | E];
    rewrite E; lra.
Qed.

(** X13: when no project has negative hours to implement, the built problem has
    a solution exactly when no member has negative hours available; selecting
    nothing is then one. *)
Theorem solvable_iff_hours_not_negative cap ps ts pb :
  build_model cap ps ts empty_problem = (inr tt, pb) ->
  (forall p, In p ps -> (0 <= hours_to_implement p)%Z) ->
  ((exists v, feasible (declared_variables ps ts) pb v) <->
   (forall tm, In tm ts -> (0 <= hours_available tm)%Z))
  /\ ((exists v, feasible (declared_variables ps ts) pb v) ->
      feasible (declared_variables ps ts) pb all_zero).
Proof.
  intros Hb Hpos.
  assert (Hzero : (forall tm, In tm ts -> (0 <= hours_available tm)%Z) ->
                  feasible (declared_variables ps ts) pb all_zero).
  { intros Hhours. split.
    - intros x _. exists 0. split; [reflexivity | left; reflexivity].
    - intros n c Hin. destruct (build_completed _ _ _ _ Hb) as [_ ->].
      cbn [constraints] in Hin. eapply rows_hold_at_zero; eauto. }
  assert (Hnec : (exists v, feasible (declared_variables ps ts) pb v) ->
                 forall tm, In tm ts -> (0 <= hours_available tm)%Z).
  { intros [v Hf] tm Htm.
    pose proof (assigned_hours_bounded _ _ _ _ _ _ Hb Hf Htm) as Hcap.
    assert (Hsum : 0 <= Qsum (map (fun p =>
               value v (Assign (member_name tm) (project_name p))
               * inject_Z (hours_to_implement p)) ps)).
    { apply Qsum_nonneg. intros p Hp.
      assert (0 <= inject_Z (hours_to_implement p)).
      { change 0 with (inject_Z 0). rewrite <- Zle_Qle. auto. }
      destruct (binary_value v _ (proj1 Hf _ (assign_declared ps ts tm p Htm Hp)))
        as [E | E]; rewrite E; lra. }
    rewrite Zle_Qle. change (inject_Z 0) with 0. lra. }
  split; [split |].
  - exact Hnec.
  - intros H. exists all_zero. auto.
  - intros H. auto.
Qed.

Lemma solvable_iff_hours_not_negative_witness :
  ((exists v, feasible (declared_variables projects team) (snd notebook_build) v) <->
   (forall tm, In tm team -> (0 <= hours_available tm)%Z))
  /\ ((exists v, feasible (declared_variables projects team) (snd notebook_build) v) ->
      feasible (declared_variables projects team) (snd notebook_build) all_zero).
Proof.
  apply (solvable_iff_hours_not_negative None projects team (snd notebook_build)).
  - vm_compute. reflexivity.
  - intros p' Hp'. simpl in Hp'.
    repeat (destruct Hp' as [<- | Hp']; [simpl; lia |]). contradiction.
Defined.

(** ** The cap, and the size of the problem *)

Lemma Zsum_ones {A} (l : list A) : Zsum (map (fun _ => 1%Z) l) = Z.of_nat (List.length l).
Proof.
  induction l as [| x l IH]; [reflexivity |].
  cbn [map Zsum fold_right List.length]. change (fold_right Z.add 0%Z) with Zsum.
  rewrite IH. lia.
Qed.

(** X14: with the cap cell switched on, a solved instance selects no more
    projects than the bound. *)
Theorem selected_within_bound bound ps ts pb v :
  build_model (Some bound) ps ts empty_problem = (inr tt, pb) ->
  feasible (declared_variables ps ts) pb v ->
  (List.length (selected_projects v ps) <= N.to_nat bound)%nat.
Proof.
  intros Hb Hf.
  pose proof (build_emits_cap bound ps ts _ _ _ Hb) as Hin.
  apply (proj2 Hf) in Hin. cbn [holds] in Hin.
  rewrite eval_lpSum, map_map, eval_of_int in Hin.
  rewrite (Qsum_ext _ (fun p => value v (SelectProject (project_name p))
                                * inject_Z ((fun _ => 1%Z) p))) in Hin.
  - rewrite (weighted_sum_of_counted v (fun p => SelectProject (project_name p))
               (fun _ => 1%Z) ps) in Hin.
    + rewrite Zsum_ones in Hin. rewrite <- Zle_Qle in Hin.
      unfold selected_projects, project_variables. rewrite length_map. lia.
    + intros p Hp. apply (proj1 Hf). apply select_declared. exact Hp.
  - intros p _. rewrite eval_of_var. unfold project_variables. cbn beta.
    change (inject_Z 1) with 1. ring.
Qed.

Lemma selected_within_bound_witness :
  selected_projects two_selected projects = ["ISS"; "Network Interventions lists"]
  /\ (List.length (selected_projects two_selected projects) <= N.to_nat 2)%nat.
Proof.
  split; [reflexivity |].
  apply (selected_within_bound 2%N projects team
           (snd (build_model (Some 2%N) projects team empty_problem)) two_selected).
  - vm_compute. reflexivity.
  - apply feasibleb_sound. vm_compute. reflexivity.
Defined.

Lemma length_flat_map_map {A B C} (g : A -> B -> C) (la : list A) (lb : list B) :
  List.length (flat_map (fun a => map (g a) lb) la)
  = (List.length la * List.length lb)%nat.
Proof.
  induction la as [| a la IH]; cbn [flat_map List.length]; [reflexivity |].
  rewrite length_app, length_map, IH. reflexivity.
Qed.

Lemma length_skill_level_rows ps ts :
  List.length (skill_level_rows ps ts)
  = List.length (filter (fun pt => unqualified (fst pt) (snd pt)) (list_prod ps ts)).
Proof.
  unfold skill_level_rows.
  induction ps as [| p ps IH]; cbn [flat_map list_prod]; [reflexivity |].
  rewrite length_app, filter_app, length_app, IH. f_equal.
  clear IH. induction ts as [| tm ts IH]; cbn [flat_map map filter fst snd];
    [reflexivity |].
  destruct (unqualified p tm); cbn [app List.length]; rewrite IH; reflexivity.
Qed.

(** X15: a completed build leaves one row for every pair of a member and a
    project, one more for every unqualified pair, one for every member and
    one for every project, and the cap's row when the cap is on; there is one
    variable for every project and one for every pair. *)
Theorem problem_size cap ps ts pb :
  build_model cap ps ts empty_problem = (inr tt, pb) ->
  List.length (constraints pb)
  = (match cap with Some _ => 1 | None => 0 end
     + List.length ts * List.length ps
     + List.length (filter (fun pt => unqualified (fst pt) (snd pt)) (list_prod ps ts))
     + List.length ts + List.length ps)%nat
  /\ List.length (declared_variables ps ts)
     = (List.length ps + List.length ts * List.length ps)%nat.
Proof.
  intros Hb. apply build_completed in Hb. destruct Hb as [_ ->].
  cbn [constraints]. split.
  - unfold rows. rewrite !length_app.
    unfold only_if_selected_rows. rewrite length_flat_map_map.
    rewrite length_skill_level_rows.
    unfold hours_available_rows, team_assignment_rows. rewrite !length_map.
    destruct cap; cbn [cap_rows List.length]; lia.
  - unfold declared_variables. rewrite length_app, length_map.
    rewrite length_flat_map_map. reflexivity.
Qed.

Lemma problem_size_witness :
  List.length (constraints (snd notebook_build)) = 53%nat
  /\ List.length (declared_variables projects team) = 35%nat.
Proof.
  exact (problem_size None projects team (snd notebook_build)
           notebook_build_completes).
Defined.

(** ** What stops a build *)

(** C4, the claim as stated, refuted: with a project listed twice, or a
    member listed twice, the build is stopped by pulp's error for an
    overlapping constraint name, raised when a constraint is already in the
    problem: neither a configuration error nor before any constraint. *)
Lemma build_without_configuration_error :
  (let p := mkProject "ISS" 5 80 ["SQL"] 1 in
   let tm := mkTeamMember "Rowlf the Dog" 140 ["APIs"; "SQL"; "Excel"] 3 in
   exists pb,
     build_model None [p; p] [tm] empty_problem
     = (inl (PulpError
          "overlapping constraint names: Assign_Rowlf_the_Dog_ISS_OnlyIfProjectSelected"),
        pb)
     /\ List.length (constraints pb) = 1%nat)
  /\ (let p := mkProject "ISS" 5 80 ["SQL"] 1 in
      let tm := mkTeamMember "Rowlf the Dog" 140 ["APIs"; "SQL"; "Excel"] 3 in
      exists pb,
        build_model None [p] [tm; tm] empty_problem
        = (inl (PulpError
             "overlapping constraint names: Assign_Rowlf_the_Dog_ISS_OnlyIfProjectSelected"),
           pb)
        /\ List.length (constraints pb) = 1%nat).
Proof.
  split.
  - eexists. split; [vm_compute; reflexivity | reflexivity].
  - eexists. split; [vm_compute; reflexivity | reflexivity].
Qed.

(** C4, amended: two projects of one name, or two members of one name, do
    stop the build, though with pulp's error [overlapping constraint names]
    for the first constraint whose name is already taken, not with a
    configuration error; and a build that fails, fails with that error and
    after constraints have been emitted: the name it reports is the name of
    a constraint already in the problem. *)
Theorem duplicate_names_stop_the_build cap ps ts r pb :
  build_model cap ps ts empty_problem = (r, pb) ->
  (~ NoDup (map project_name ps) \/ ~ NoDup (map member_name ts) ->
   exists n,
     r = inl (PulpError ("overlapping constraint names: " ++ n))
     /\ In n (map fst (constraints pb)))
  /\ (forall e,
      r = inl e ->
      exists n,
        e = PulpError ("overlapping constraint names: " ++ n)
        /\ In n (map fst (constraints pb))
        /\ constraints pb <> []).
Proof.
  intros H.
  assert (Hfail : forall e, r = inl e ->
            exists n, e = PulpError ("overlapping constraint names: " ++ n)
                      /\ In n (map fst (constraints pb))).
  { intros e ->. destruct (build_outcome _ _ _ _ _ H) as [_ [rest [_ Hr]]].
    destruct Hr as [n [c [rest' [_ [Hin He]]]]]. eauto. }
  split.
  - intros Hdup. destruct r as [e | []].
    + destruct (Hfail e eq_refl) as [n [-> Hin]]. eauto.
    + exfalso. destruct (completed_names_distinct _ _ _ _ H) as [_ [_ [Hp Ht]]].
      tauto.
  - intros e He. destruct (Hfail e He) as [n [Hn Hin]].
    exists n. split; [exact Hn |]. split; [exact Hin |].
    intros E. rewrite E in Hin. exact Hin.
Qed.

Lemma duplicate_names_stop_the_build_witness :
  let p := mkProject "ISS" 5 80 ["SQL"] 1 in
  let tm := mkTeamMember "Rowlf the Dog" 140 ["APIs"; "SQL"; "Excel"] 3 in
  exists n,
    fst (build_model None [p; p] [tm] empty_problem)
    = inl (PulpError ("overlapping constraint names: " ++ n))
    /\ In n (map fst (constraints (snd (build_model None [p; p] [tm] empty_problem)))).
Proof.
  intros p tm.
  apply (proj1 (duplicate_names_stop_the_build None [p; p] [tm] _ _
                  (surjective_pairing _))).
  left. intros Hnd. inversion Hnd as [| x l Hx Hl]; subst.
  apply Hx. left. reflexivity.
Defined.
